(** * FLD.py: forming limit curve predictor

    A shallow embedding of [src/bin/FLD.py] (class [FLCPredictor]) and the
    properties its specification states about it.

    Numbers.  The program computes with Python floats.  They are idealised
    here as the real numbers [R]: every arithmetic operation is the exact one,
    so rounding, overflow, infinities and NaN are outside this development.
    What Python does differently from the field of reals is kept:
    - [/] on Python floats raises [ZeroDivisionError] on a zero divisor;
    - [**] on a negative base and a fractional exponent gives a complex
      number, [0.0 ** y] is [0.0] for a positive [y];
    - list indexing raises [IndexError] out of range, and a negative index
      counts from the end.

    Effects.  Functions of the source that can raise are written in the
    [outcome] monad below.  A complex value stops no run of the source: the
    constructor goes on past a complex TE point ([and_also]), and what the
    later calculators raise is raised.  The accessor [get_FLC_points] is written as a
    state transformer over the object, so that what it leaves of the object
    can be stated. *)

From Stdlib Require Import Reals Lra Lia List ZArith String Bool.
Import ListNotations.
Open Scope R_scope.

(** ** Outcomes of a call *)

Inductive exn : Set :=
| ZeroDivisionError
| IndexError.

(** [ComplexValued]: the source goes on with a complex number (a negative
    float raised to a fractional power); it is not an exception.  The
    embedding is real-valued: [bind] does not follow the value further,
    which is used inside [calculate_TE_point] only, where nothing that
    comes after the complex power can raise
    ([calculate_TE_point_never_raises]). *)
Inductive outcome (A : Type) : Type :=
| Returns (a : A)
| Raises (e : exn)
| ComplexValued.

Arguments Returns {A} a.
Arguments Raises {A} e.
Arguments ComplexValued {A}.

Definition bind {A B : Type} (c : outcome A) (k : A -> outcome B) : outcome B :=
  match c with
  | Returns a => k a
  | Raises e => Raises e
  | ComplexValued => ComplexValued
  end.

Notation "x <- c ;; k" := (bind c (fun x => k))
  (at level 61, c at next level, right associativity).

(** [and_also c rest]: [c] has been computed and the run goes on with
    [rest], which does not read the value of [c].  An exception of [c] ends
    the run; a complex value in [c] does not: what [rest] raises is raised. *)
Definition and_also {A B : Type} (c : outcome A) (rest : outcome B)
  : outcome (A * B) :=
  match c, rest with
  | Raises e, _ => Raises e
  | _, Raises e => Raises e
  | Returns a, Returns b => Returns (a, b)
  | _, _ => ComplexValued
  end.

(** ** Python and numpy primitives *)

Module Py.

(** [x != y] *)
Definition ne_dec (x y : R) : {x <> y} + {x = y} :=
  match Req_dec_T x y with
  | left e => right e
  | right n => left n
  end.

(** [x / y] on Python floats. *)
Definition truediv (x y : R) : outcome R :=
  if Req_dec_T y 0 then Raises ZeroDivisionError else Returns (x / y).

Definition is_integer (y : R) : {IZR (Int_part y) = y} + {IZR (Int_part y) <> y} :=
  Req_dec_T (IZR (Int_part y)) y.

(** [x ** y] on Python floats (an int exponent is converted to float). *)
Definition pow (x y : R) : outcome R :=
  if Req_dec_T y 0 then Returns 1
  else if Rlt_dec 0 x then Returns (Rpower x y)
  else if Req_dec_T x 0 then
    if Rlt_dec y 0 then Raises ZeroDivisionError else Returns 0
  else if is_integer y then Returns (powerRZ x (Int_part y))
  else ComplexValued.

(** [l[i]] on a list. *)
Definition index (l : list R) (i : Z) : outcome R :=
  let n := Z.of_nat (List.length l) in
  let j := if (i <? 0)%Z then (i + n)%Z else i in
  if ((0 <=? j)%Z && (j <? n)%Z)%bool then
    match nth_error l (Z.to_nat j) with
    | Some v => Returns v
    | None => Raises IndexError
    end
  else Raises IndexError.

(** [x or y] on numbers, where [x] may be [None]. *)
Definition or_else (x : option R) (y : R) : R :=
  match x with
  | None => y
  | Some v => if Req_dec_T v 0 then y else v
  end.

End Py.

Module Np.

(** [np.floor], [np.ceil] *)
Definition floor (x : R) : R := IZR (Int_part x).
Definition ceil (x : R) : R := - IZR (Int_part (- x)).

Definition set_last (l : list R) (v : R) : list R := removelast l ++ [v].

(** [np.linspace(start, stop, num)] with the default [endpoint=True]:
    [arange(0, num) * step + start] with [step = (stop - start) / (num - 1)],
    and the last sample overwritten with [stop] when [num > 1]. *)
Definition linspace (start stop : R) (num : nat) : list R :=
  let div := INR (num - 1) in
  let delta := stop - start in
  let step := delta / div in
  let y := map (fun i => INR i * step + start) (seq 0 num) in
  if (1 <? num)%nat then set_last y stop else y.

End Np.

(** ** The class [FLCPredictor] *)

(** The dict [{'eps2': ..., 'eps1': ...}] a point calculator returns. *)
Record point : Type := mkPoint { eps2 : R; eps1 : R }.

Record FLCPredictor : Type := mkFLCPredictor {
  A80 : R;
  r0 : R;
  r45 : R;
  r90 : R;
  r : R;
  t : R;
  A80min : R;
  TE : point;
  PS : point;
  IM : point;
  BI : point
}.

(** The intermediate values of [calculate_TE_point], with [eps3_TE], which
    the source computes and does not return. *)
Record TE_strains : Type := mkTE {
  SVL_t : R;
  strain_ratio : R;
  denominator : R;
  eps3_TE : R;
  eps2_TE : R;
  eps1_TE : R
}.

Definition calculate_TE_strains (A80 r t : R) : outcome TE_strains :=
  p <- Py.pow A80 0.567 ;;
  let term_A := 0.0626 * p in
  let term_t := (t - 1) * (0.12 - 0.0024 * A80) in
  let SVL_t := term_A + term_t in
  q <- Py.pow r 0.701 ;;
  let strain_ratio := 0.797 * q in
  sq <- Py.pow strain_ratio 2 ;;
  let denominator := sqrt (1 + sq) in
  let eps3_TE := - SVL_t / denominator in
  let eps2_TE := - SVL_t * strain_ratio / denominator in
  let eps1_TE := (1 + strain_ratio) * SVL_t / denominator in
  Returns (mkTE SVL_t strain_ratio denominator eps3_TE eps2_TE eps1_TE).

Definition calculate_TE_point (A80 r t : R) : outcome point :=
  s <- calculate_TE_strains A80 r t ;;
  Returns {| eps2 := eps2_TE s; eps1 := eps1_TE s |}.

Definition calculate_PS_point (A80 t : R) : outcome point :=
  let eps1_PS := 0.0084 * A80 + 0.0017 * A80 * (t - 1) in
  Returns {| eps2 := 0; eps1 := eps1_PS |}.

Definition calculate_BI_point (A80 t : R) (A80min : option R) : outcome point :=
  let A80min := Py.or_else A80min A80 in
  let eps1_BI_1mm := 0.005 * A80min + 0.25 in
  d <- Py.truediv (0.00215 * A80min) (0.6 + 0.00285 * A80min) ;;
  let t_trans := 1.5 - d in
  let eps1_BI :=
    if Rle_dec t t_trans
    then 0.00215 * A80min + 0.25 + 0.00285 * A80min * t
    else eps1_BI_1mm in
  Returns {| eps2 := eps1_BI; eps1 := eps1_BI |}.

Definition calculate_IM_point (A80 t : R) : outcome point :=
  d <- Py.truediv (0.00215 * A80) (0.6 + 0.00285 * A80) ;;
  let t_trans := 1.5 - d in
  let base_eps_IM1 := 0.0062 * A80 + 0.18 in
  let eps1_IM :=
    if Rle_dec t t_trans
    then 0.0062 * A80 + 0.18 + 0.0027 * A80 * (t - 1)
    else base_eps_IM1 in
  Returns {| eps2 := 0.75 * eps1_IM; eps1 := eps1_IM |}.

(** [_calculate_all_points]: the four points, in the order the source
    computes them, from the attributes [__init__] has set.  The three later
    calculators do not read the TE point, and a complex TE point does not
    keep them from running (and from raising). *)
Definition _calculate_all_points (A80 r0 r45 r90 r t A80min : R)
  : outcome FLCPredictor :=
  pts <- and_also (calculate_TE_point A80 r t)
           (ps <- calculate_PS_point A80 t ;;
            im <- calculate_IM_point A80 t ;;
            bi <- calculate_BI_point A80 t (Some A80min) ;;
            Returns (ps, im, bi)) ;;
  let '(te, (ps, im, bi)) := pts in
  Returns (mkFLCPredictor A80 r0 r45 r90 r t A80min te ps im bi).

(** [__init__] *)
Definition init (A80 r0 r45 r90 t : R) (A80min : option R)
  : outcome FLCPredictor :=
  let r := (r0 + 2 * r45 + r90) / 4 in
  let A80min := match A80min with Some v => v | None => A80 end in
  _calculate_all_points A80 r0 r45 r90 r t A80min.

(** A method that reads or writes the object: the value it returns and the
    object after the call. *)
Definition method (A : Type) : Type := FLCPredictor -> A * FLCPredictor.

(** [get_FLC_points]: a fresh dict, in insertion order, of fresh tuples. *)
Definition get_FLC_points : method (list (string * (R * R))) :=
  fun self =>
    ([ ("TE"%string, (eps2 (TE self), eps1 (TE self)));
       ("PS"%string, (eps2 (PS self), eps1 (PS self)));
       ("IM"%string, (eps2 (IM self), eps1 (IM self)));
       ("BI"%string, (eps2 (BI self), eps1 (BI self))) ],
     self).

Definition round_down_to_nearest_tenth (x : R) : R := Np.floor (x * 10) / 10.

Definition round_up_to_nearest_tenth (x : R) : R := Np.ceil (x * 10) / 10.

(** A sampled line: the abscissas and the ordinates, as two arrays. *)
Definition segment : Type := (list R * list R)%type.

Definition extrapolate_FLC_dynamically (x_vals y_vals : list R)
  : outcome (segment * segment) :=
  x_TE <- Py.index x_vals 0 ;;
  y_TE <- Py.index y_vals 0 ;;
  x_PS <- Py.index x_vals 1 ;;
  y_PS <- Py.index y_vals 1 ;;
  slope_left <- (if Py.ne_dec x_PS x_TE
                 then Py.truediv (y_PS - y_TE) (x_PS - x_TE)
                 else Returns 0) ;;
  let intercept_left := y_TE - slope_left * x_TE in
  let left_limit := round_down_to_nearest_tenth x_TE - 0.1 in
  let x_ext_left := Np.linspace left_limit x_TE 50 in
  let y_ext_left := map (fun x => slope_left * x + intercept_left) x_ext_left in
  x_IM <- Py.index x_vals (-2) ;;
  y_IM <- Py.index y_vals (-2) ;;
  x_BI <- Py.index x_vals (-1) ;;
  y_BI <- Py.index y_vals (-1) ;;
  slope_right <- (if Py.ne_dec x_BI x_IM
                  then Py.truediv (y_BI - y_IM) (x_BI - x_IM)
                  else Returns 0) ;;
  let intercept_right := y_BI - slope_right * x_BI in
  let right_limit := round_up_to_nearest_tenth x_BI + 0.1 in
  let x_ext_right := Np.linspace x_BI right_limit 50 in
  let y_ext_right := map (fun x => slope_right * x + intercept_right) x_ext_right in
  Returns ((x_ext_left, y_ext_left), (x_ext_right, y_ext_right)).

(** ** The specification's vocabulary

    The definitions of this module follow the wording of the specification,
    not the source; the theorems below compare them with the code. *)

Module Spec.

(** A valid material input: positive elongation, anisotropy coefficients
    and thickness; the optional [A80min] absent, or present and not
    negative (a literal zero is a valid value). *)
Definition valid_input (A80 r0 r45 r90 t : R) (A80min : option R) : Prop :=
  0 < A80 /\ 0 < r0 /\ 0 < r45 /\ 0 < r90 /\ 0 < t /\
  match A80min with Some v => 0 <= v | None => True end.

(** A required input that is not positive. *)
Definition invalid_input (A80 r0 r45 r90 t : R) : Prop :=
  A80 <= 0 \/ r0 <= 0 \/ r45 <= 0 \/ r90 <= 0 \/ t <= 0.

Definition NormalAnisotropy (r0 r45 r90 : R) : R := (r0 + 2 * r45 + r90) / 4.

(** The TE point of the specification, on a positive [A80] and [r]. *)
Definition SVL (A80 t : R) : R :=
  0.0626 * Rpower A80 0.567 + (t - 1) * (0.12 - 0.0024 * A80).
Definition ratio (r : R) : R := 0.797 * Rpower r 0.701.
Definition denom (r : R) : R := sqrt (1 + (ratio r)²).
Definition TE_eps3 (A80 r t : R) : R := - SVL A80 t / denom r.
Definition TE_eps2 (A80 r t : R) : R := - SVL A80 t * ratio r / denom r.
Definition TE_eps1 (A80 r t : R) : R := (1 + ratio r) * SVL A80 t / denom r.

(** The [A80min] the BI point uses: [A80] when the supplied one is absent
    or zero. *)
Definition effective_A80min (A80 : R) (A80min : option R) : R :=
  match A80min with
  | None => A80
  | Some v => if Req_dec_T v 0 then A80 else v
  end.

(** The transition thickness. *)
Definition t_trans (A : R) : R := 1.5 - (0.00215 * A) / (0.6 + 0.00285 * A).

(** The two branches of the BI and of the IM formula. *)
Definition BI_thin (A t : R) : R := 0.00215 * A + 0.25 + 0.00285 * A * t.
Definition BI_thick (A : R) : R := 0.005 * A + 0.25.
Definition IM_thin (A t : R) : R := 0.0062 * A + 0.18 + 0.0027 * A * (t - 1).
Definition IM_thick (A : R) : R := 0.0062 * A + 0.18.

(** [n] samples from [a] to [b], evenly spaced. *)
Definition evenly_spaced (a b : R) (n : nat) (xs : list R) : Prop :=
  List.length xs = n /\
  forall i, (i < n)%nat ->
    nth i xs 0 = a + INR i * ((b - a) / INR (n - 1)).

Definition floor_to_tenth (x : R) : R := IZR (Int_part (10 * x)) / 10.
Definition ceil_to_tenth (x : R) : R := - IZR (Int_part (- (10 * x))) / 10.

End Spec.

(** ** Plotting: the values [plot_FLC] computes

    [plot_FLC] draws with matplotlib.  What is embedded is what it computes
    and hands to the drawing calls: the abscissas and ordinates of the curve,
    the dashed segments it draws, and the two axis windows.  The legend text,
    the annotations and the cosmetic calls are not modelled. *)

Module Plot.

(** What can go wrong in [plot_FLC]: the builtins' own errors, and whatever
    [extrapolate_FLC_dynamically] ends with. *)
Inductive error : Set :=
| KeyError
| ValueError
| Propagated (e : exn)
| Unfollowed.

Definition result (A : Type) : Type := (error + A)%type.

Definition of_outcome {A : Type} (c : outcome A) : result A :=
  match c with
  | Returns a => inr a
  | Raises e => inl (Propagated e)
  | ComplexValued => inl Unfollowed
  end.

Definition and_then {A B : Type} (c : result A) (k : A -> result B) : result B :=
  match c with
  | inr a => k a
  | inl e => inl e
  end.

(** [d[key]] on a dict. *)
Definition dict_get {V : Type} (d : list (string * V)) (key : string) : result V :=
  match find (fun kv => String.eqb (fst kv) key) d with
  | Some kv => inr (snd kv)
  | None => inl KeyError
  end.

(** [[f(key) for key in l]] *)
Fixpoint comprehension {A B : Type} (f : A -> result B) (l : list A)
  : result (list B) :=
  match l with
  | [] => inr []
  | a :: l' =>
      and_then (f a) (fun b =>
      and_then (comprehension f l') (fun bs => inr (b :: bs)))
  end.

(** The builtins [min] and [max] on a list: the first smallest (largest)
    item, [ValueError] on an empty list. *)
Definition min (l : list R) : result R :=
  match l with
  | [] => inl ValueError
  | x :: l' => inr (fold_left (fun m y => if Rlt_dec y m then y else m) l' x)
  end.

Definition max (l : list R) : result R :=
  match l with
  | [] => inl ValueError
  | x :: l' => inr (fold_left (fun m y => if Rlt_dec m y then y else m) l' x)
  end.

Record axes : Type := mkAxes {
  x_vals : list R;
  y_vals : list R;
  dashed_left : option segment;
  dashed_right : option segment;
  xlim : R * R;
  ylim : R * R
}.

End Plot.

Notation "x <~ c ;; k" := (Plot.and_then c (fun x => k))
  (at level 61, c at next level, right associativity).

Definition plot_FLC (extrapolate_left extrapolate_right : bool)
  : method (Plot.result Plot.axes) :=
  fun self =>
    let (points, self) := get_FLC_points self in
    let labels := ["TE"; "PS"; "IM"; "BI"]%string in
    (x_vals <~ Plot.comprehension
                 (fun key => p <~ Plot.dict_get points key ;; inr (fst p))
                 labels ;;
     y_vals <~ Plot.comprehension
                 (fun key => p <~ Plot.dict_get points key ;; inr (snd p))
                 labels ;;
     lines <~ Plot.of_outcome (extrapolate_FLC_dynamically x_vals y_vals) ;;
     let (left_line, right_line) := lines : segment * segment in
     let dashed_left := if extrapolate_left then Some left_line else None in
     let dashed_right := if extrapolate_right then Some right_line else None in
     lo <~ (if extrapolate_left
            then x <~ Plot.of_outcome (Py.index (fst left_line) 0) ;; inr (x - 0.05)
            else m <~ Plot.min x_vals ;; inr (m - 0.05)) ;;
     hi <~ (if extrapolate_right
            then x <~ Plot.of_outcome (Py.index (fst right_line) (-1)) ;; inr (x + 0.05)
            else m <~ Plot.max x_vals ;; inr (m + 0.05)) ;;
     top <~ Plot.max y_vals ;;
     inr (Plot.mkAxes x_vals y_vals dashed_left dashed_right
            (lo, hi) (0, top + 0.1)),
     self).

(** ** Facts about the primitives *)

Lemma bind_Returns {A B : Type} (a : A) (k : A -> outcome B) :
  bind (Returns a) k = k a.
Proof. reflexivity. Qed.

Lemma bind_inv {A B : Type} (c : outcome A) (k : A -> outcome B) (b : B) :
  bind c k = Returns b -> exists a, c = Returns a /\ k a = Returns b.
Proof.
  destruct c as [a | e | ]; simpl; intros H; try discriminate.
  exists a; split; [reflexivity | exact H].
Qed.

Lemma truediv_Returns (x y : R) :
  y <> 0 -> Py.truediv x y = Returns (x / y).
Proof.
  intros Hy. unfold Py.truediv.
  destruct (Req_dec_T y 0) as [E | _]; [contradiction | reflexivity].
Qed.

Lemma truediv_Raises (x : R) : Py.truediv x 0 = Raises ZeroDivisionError.
Proof.
  unfold Py.truediv.
  destruct (Req_dec_T 0 0) as [_ | N]; [reflexivity | now destruct N].
Qed.

Lemma pow_pos_base (x y : R) :
  0 < x -> y <> 0 -> Py.pow x y = Returns (Rpower x y).
Proof.
  intros Hx Hy. unfold Py.pow.
  destruct (Req_dec_T y 0) as [E | _]; [contradiction |].
  destruct (Rlt_dec 0 x) as [_ | N]; [reflexivity | contradiction].
Qed.

Lemma pow_zero_base (y : R) : 0 < y -> Py.pow 0 y = Returns 0.
Proof.
  intros Hy. unfold Py.pow.
  destruct (Req_dec_T y 0) as [E | _]; [lra |].
  destruct (Rlt_dec 0 0) as [L | _]; [lra |].
  destruct (Req_dec_T 0 0) as [_ | N]; [| now destruct N].
  destruct (Rlt_dec y 0) as [L | _]; [lra | reflexivity].
Qed.

Lemma Rpower_two (x : R) : 0 < x -> Rpower x 2 = x².
Proof.
  intros Hx. replace 2 with (INR 2) by (simpl; lra).
  rewrite Rpower_pow by exact Hx. unfold Rsqr. simpl. ring.
Qed.

Lemma pow_square (x : R) : 0 <= x -> Py.pow x 2 = Returns x².
Proof.
  intros [Hx | <-].
  - rewrite pow_pos_base by lra. now rewrite Rpower_two.
  - rewrite pow_zero_base by lra. unfold Rsqr. f_equal. ring.
Qed.

(** A fractional power of a non-negative float is a non-negative float. *)
Lemma pow_nonneg_base (x y : R) :
  0 <= x -> 0 < y ->
  exists p, Py.pow x y = Returns p /\ 0 <= p /\ (0 < x -> p = Rpower x y).
Proof.
  intros [Hx | <-] Hy.
  - exists (Rpower x y). rewrite pow_pos_base by lra.
    repeat split. unfold Rpower. left. apply exp_pos.
  - exists 0. rewrite pow_zero_base by exact Hy.
    repeat split; [lra | intros H; lra].
Qed.

(** No integer is a proper decimal fraction [n / 1000]. *)
Lemma not_integer_thousandth (n : Z) :
  (n mod 1000 <> 0)%Z -> forall z : Z, IZR z <> IZR n / 1000.
Proof.
  intros Hn z E.
  assert (H : IZR (z * 1000) = IZR n) by (rewrite mult_IZR, E; field).
  apply eq_IZR in H. subst n. now rewrite Z.mod_mul in Hn.
Qed.

Lemma pow_neg_base_0567 (x : R) : x < 0 -> Py.pow x 0.567 = ComplexValued.
Proof.
  intros Hx. unfold Py.pow.
  destruct (Req_dec_T 0.567 0) as [E | _]; [lra |].
  destruct (Rlt_dec 0 x) as [L | _]; [lra |].
  destruct (Req_dec_T x 0) as [E | _]; [lra |].
  destruct (Py.is_integer 0.567) as [E | _]; [| reflexivity].
  exfalso. apply (not_integer_thousandth 567) with (z := Int_part 0.567).
  - discriminate.
  - rewrite E. lra.
Qed.

Lemma floor_spec (x : R) : Np.floor x <= x < Np.floor x + 1.
Proof.
  unfold Np.floor. destruct (base_Int_part x) as [H1 H2]. lra.
Qed.

Lemma ceil_spec (x : R) : Np.ceil x - 1 < x <= Np.ceil x.
Proof.
  unfold Np.ceil. destruct (base_Int_part (- x)) as [H1 H2]. lra.
Qed.

(** ** The point calculators *)

Lemma denom_pos (x : R) : 0 < sqrt (1 + x²).
Proof. apply sqrt_lt_R0. pose proof (Rle_0_sqr x). lra. Qed.

(** [calculate_TE_strains] returns on every non-negative [A80] and [r]; the
    two fractional powers are named, since [0.0 ** y] is not [Rpower]. *)
Lemma calculate_TE_strains_nonneg (A80 r t : R) :
  0 <= A80 -> 0 <= r ->
  exists p q,
    Py.pow A80 0.567 = Returns p /\ (0 < A80 -> p = Rpower A80 0.567) /\
    Py.pow r 0.701 = Returns q /\ (0 < r -> q = Rpower r 0.701) /\
    calculate_TE_strains A80 r t =
      Returns
        (let S := 0.0626 * p + (t - 1) * (0.12 - 0.0024 * A80) in
         let ra := 0.797 * q in
         let d := sqrt (1 + ra²) in
         mkTE S ra d (- S / d) (- S * ra / d) ((1 + ra) * S / d)).
Proof.
  intros HA Hr.
  destruct (pow_nonneg_base A80 0.567 HA) as (p & Ep & _ & Hp); [lra |].
  destruct (pow_nonneg_base r 0.701 Hr) as (q & Eq & Hq0 & Hq); [lra |].
  exists p, q. repeat split; try assumption.
  unfold calculate_TE_strains.
  rewrite Ep, bind_Returns, Eq, bind_Returns.
  rewrite pow_square by lra. reflexivity.
Qed.

Lemma calculate_TE_strains_valid (A80 r t : R) :
  0 < A80 -> 0 < r ->
  calculate_TE_strains A80 r t =
    Returns (mkTE (Spec.SVL A80 t) (Spec.ratio r) (Spec.denom r)
               (Spec.TE_eps3 A80 r t) (Spec.TE_eps2 A80 r t)
               (Spec.TE_eps1 A80 r t)).
Proof.
  intros HA Hr.
  destruct (calculate_TE_strains_nonneg A80 r t) as (p & q & _ & Hp & _ & Hq & E);
    try lra.
  rewrite E, (Hp HA), (Hq Hr). reflexivity.
Qed.

Lemma calculate_IM_point_regimes (A t : R) :
  0.6 + 0.00285 * A <> 0 ->
  calculate_IM_point A t =
    Returns
      (let e := if Rle_dec t (Spec.t_trans A)
                then Spec.IM_thin A t else Spec.IM_thick A in
       {| eps2 := 0.75 * e; eps1 := e |}).
Proof.
  intros H. unfold calculate_IM_point.
  rewrite truediv_Returns by exact H. reflexivity.
Qed.

Lemma or_else_effective (A80 : R) (A80min : option R) :
  Py.or_else (Some match A80min with Some v => v | None => A80 end) A80 =
  Spec.effective_A80min A80 A80min.
Proof.
  destruct A80min as [v |]; simpl; [reflexivity |].
  destruct (Req_dec_T A80 0); reflexivity.
Qed.

Lemma calculate_BI_point_regimes (A80 t : R) (A80min : option R) :
  let A := Py.or_else A80min A80 in
  0.6 + 0.00285 * A <> 0 ->
  calculate_BI_point A80 t A80min =
    Returns
      (let e := if Rle_dec t (Spec.t_trans A)
                then Spec.BI_thin A t else Spec.BI_thick A in
       {| eps2 := e; eps1 := e |}).
Proof.
  intros A H. unfold calculate_BI_point. fold A.
  rewrite truediv_Returns by exact H. reflexivity.
Qed.

Lemma effective_A80min_nonneg (A80 : R) (A80min : option R) :
  0 <= A80 ->
  match A80min with Some v => 0 <= v | None => True end ->
  0 <= Spec.effective_A80min A80 A80min.
Proof.
  intros HA Hm. destruct A80min as [v |]; simpl; [| exact HA].
  destruct (Req_dec_T v 0); assumption.
Qed.

(** The object [__init__] builds on a non-negative [A80] and [r]. *)
Lemma init_nonneg (A80 r0 r45 r90 t : R) (A80min : option R) :
  0 <= A80 -> 0 <= r0 + 2 * r45 + r90 ->
  match A80min with Some v => 0 <= v | None => True end ->
  let r := Spec.NormalAnisotropy r0 r45 r90 in
  let A := Spec.effective_A80min A80 A80min in
  exists s,
    calculate_TE_strains A80 r t = Returns s /\
    init A80 r0 r45 r90 t A80min =
      Returns
        (mkFLCPredictor A80 r0 r45 r90 r t
           match A80min with Some v => v | None => A80 end
           {| eps2 := eps2_TE s; eps1 := eps1_TE s |}
           {| eps2 := 0; eps1 := 0.0084 * A80 + 0.0017 * A80 * (t - 1) |}
           (let e := if Rle_dec t (Spec.t_trans A80)
                     then Spec.IM_thin A80 t else Spec.IM_thick A80 in
            {| eps2 := 0.75 * e; eps1 := e |})
           (let e := if Rle_dec t (Spec.t_trans A)
                     then Spec.BI_thin A t else Spec.BI_thick A in
            {| eps2 := e; eps1 := e |})).
Proof.
  intros HA Hr Hm r A.
  assert (Hr' : 0 <= r) by (unfold r, Spec.NormalAnisotropy; lra).
  destruct (calculate_TE_strains_nonneg A80 r t HA Hr') as (p & q & _ & _ & _ & _ & E).
  eexists. split; [exact E |].
  pose proof (effective_A80min_nonneg A80 A80min HA Hm) as HA'. fold A in HA'.
  unfold init, _calculate_all_points, calculate_TE_point.
  fold (Spec.NormalAnisotropy r0 r45 r90). fold r.
  rewrite E. cbn [bind calculate_PS_point].
  rewrite calculate_IM_point_regimes by lra. cbn [bind].
  rewrite calculate_BI_point_regimes; rewrite or_else_effective; fold A; [| lra].
  reflexivity.
Qed.

(** ** Construction and validation *)

(** The constructor on a complex TE point: the later calculators still
    run, and what they raise is raised. *)
Lemma all_points_complex_TE (A80 r0 r45 r90 r t A80min : R) :
  calculate_TE_point A80 r t = ComplexValued ->
  _calculate_all_points A80 r0 r45 r90 r t A80min =
    match
      (ps <- calculate_PS_point A80 t ;;
       im <- calculate_IM_point A80 t ;;
       bi <- calculate_BI_point A80 t (Some A80min) ;;
       Returns (ps, im, bi))
    with
    | Raises e => Raises e
    | _ => ComplexValued
    end.
Proof.
  intros E. unfold _calculate_all_points. rewrite E.
  destruct (ps <- calculate_PS_point A80 t ;; _) as [[[ps im] bi] | e | ];
    reflexivity.
Qed.

Lemma pow_never_raises (x y : R) (e : exn) :
  0 < y -> Py.pow x y <> Raises e.
Proof.
  intros Hy. unfold Py.pow.
  destruct (Req_dec_T y 0); [discriminate |].
  destruct (Rlt_dec 0 x); [discriminate |].
  destruct (Req_dec_T x 0).
  - destruct (Rlt_dec y 0); [lra | discriminate].
  - destruct (Py.is_integer y); discriminate.
Qed.

(** Whatever its arguments, [calculate_TE_point] raises nothing: it returns
    a real point or goes on with a complex one. *)
Lemma calculate_TE_point_never_raises (A80 r t : R) (e : exn) :
  calculate_TE_point A80 r t <> Raises e.
Proof.
  unfold calculate_TE_point, calculate_TE_strains.
  destruct (Py.pow A80 0.567) as [p | e1 | ] eqn:E1; cbn [bind];
    [| exfalso; apply (pow_never_raises A80 0.567 e1); [lra | exact E1]
     | discriminate].
  destruct (Py.pow r 0.701) as [q | e2 | ] eqn:E2; cbn [bind];
    [| exfalso; apply (pow_never_raises r 0.701 e2); [lra | exact E2]
     | discriminate].
  destruct (Py.pow (0.797 * q) 2) as [sq | e3 | ] eqn:E3; cbn [bind];
    [discriminate
    | exfalso; apply (pow_never_raises (0.797 * q) 2 e3); [lra | exact E3]
    | discriminate].
Qed.

Lemma calculate_TE_point_negative_elongation (A80 r t : R) :
  A80 < 0 -> calculate_TE_point A80 r t = ComplexValued.
Proof.
  intros HA. unfold calculate_TE_point, calculate_TE_strains.
  now rewrite pow_neg_base_0567.
Qed.

(** A negative [A80] is not rejected either: the run goes on with the
    complex value of [A80 ** 0.567], and ends with it unless one of the two
    later divisions is by zero. *)
Lemma init_negative_elongation (A80 r0 r45 r90 t : R) (A80min : option R) :
  A80 < 0 ->
  A80 <> -4000 / 19 ->
  Spec.effective_A80min A80 A80min <> -4000 / 19 ->
  init A80 r0 r45 r90 t A80min = ComplexValued.
Proof.
  intros HA Hpole Hpole'. unfold init.
  rewrite all_points_complex_TE
    by now apply calculate_TE_point_negative_elongation.
  cbn [bind calculate_PS_point].
  rewrite calculate_IM_point_regimes by lra. cbn [bind].
  rewrite calculate_BI_point_regimes; rewrite or_else_effective; [| lra].
  reflexivity.
Qed.

(** C1, as stated, fails: [A80 = 0] (with [r0 = r45 = r90 = 1], [t = 1]) is
    a non-positive required input, and the constructor raises nothing; it
    returns the complete model, with TE = PS = (0, 0), IM = (0.135, 0.18) and
    BI = (0.25, 0.25). *)
Lemma init_accepts_zero_elongation :
  Spec.invalid_input 0 1 1 1 1 /\
  init 0 1 1 1 1 None =
    Returns (mkFLCPredictor 0 1 1 1 1 1 0
               {| eps2 := 0; eps1 := 0 |}
               {| eps2 := 0; eps1 := 0 |}
               {| eps2 := 0.135; eps1 := 0.18 |}
               {| eps2 := 0.25; eps1 := 0.25 |}).
Proof.
  split; [left; lra |].
  destruct (init_nonneg 0 1 1 1 1 None) as (s & Es & E);
    [lra | lra | exact I |].
  rewrite E. clear E.
  destruct (calculate_TE_strains_nonneg 0 1 1) as (p & q & Ep & _ & _ & _ & E');
    try lra.
  unfold Spec.NormalAnisotropy in Es.
  replace ((1 + 2 * 1 + 1) / 4) with 1 in Es by lra.
  rewrite E' in Es. injection Es as <-.
  rewrite pow_zero_base in Ep by lra. injection Ep as <-.
  cbn [eps2_TE eps1_TE Spec.effective_A80min].
  unfold Spec.t_trans, Spec.IM_thin, Spec.IM_thick, Spec.BI_thin, Spec.BI_thick,
    Spec.NormalAnisotropy.
  destruct (Rle_dec 1 (1.5 - 0.00215 * 0 / (0.6 + 0.00285 * 0))) as [_ | N];
    [| exfalso; apply N; lra].
  f_equal. f_equal; try lra; f_equal; lra.
Qed.

(** C1 (amended): the constructor validates nothing.  On every input with a
    non-negative [A80], a non-negative sum [r0 + 2*r45 + r90] and an [A80min]
    that is absent or non-negative, whatever the thickness [t] (zero and
    negative included), it raises nothing and returns a complete model: the
    inputs as given, [r], and the four points. *)
Theorem init_performs_no_validation
    (A80 r0 r45 r90 t : R) (A80min : option R) :
  0 <= A80 -> 0 <= r0 + 2 * r45 + r90 ->
  match A80min with Some v => 0 <= v | None => True end ->
  exists m te ps im bi,
    init A80 r0 r45 r90 t A80min = Returns m /\
    m = mkFLCPredictor A80 r0 r45 r90 ((r0 + 2 * r45 + r90) / 4) t
          match A80min with Some v => v | None => A80 end te ps im bi /\
    calculate_TE_point A80 ((r0 + 2 * r45 + r90) / 4) t = Returns te /\
    calculate_PS_point A80 t = Returns ps /\
    calculate_IM_point A80 t = Returns im /\
    calculate_BI_point A80 t
      (Some match A80min with Some v => v | None => A80 end) = Returns bi.
Proof.
  intros HA Hr Hm.
  destruct (init_nonneg A80 r0 r45 r90 t A80min HA Hr Hm) as (s & Es & E).
  pose proof (effective_A80min_nonneg A80 A80min HA Hm) as HA'.
  eexists. do 4 eexists. split; [exact E |]. split; [reflexivity |].
  repeat split.
  - unfold calculate_TE_point. fold (Spec.NormalAnisotropy r0 r45 r90).
    now rewrite Es.
  - rewrite calculate_IM_point_regimes by lra. reflexivity.
  - rewrite calculate_BI_point_regimes; rewrite or_else_effective; [| lra].
    reflexivity.
Qed.

Lemma init_performs_no_validation_witness :
  Spec.invalid_input 0 1 1 1 (-1) /\
  exists m te ps im bi,
    init 0 1 1 1 (-1) None = Returns m /\
    m = mkFLCPredictor 0 1 1 1 ((1 + 2 * 1 + 1) / 4) (-1) 0 te ps im bi /\
    calculate_TE_point 0 ((1 + 2 * 1 + 1) / 4) (-1) = Returns te /\
    calculate_PS_point 0 (-1) = Returns ps /\
    calculate_IM_point 0 (-1) = Returns im /\
    calculate_BI_point 0 (-1) (Some 0) = Returns bi.
Proof.
  split; [left; lra |].
  apply (init_performs_no_validation 0 1 1 1 (-1) None); [lra | lra | exact I].
Defined.

(** ** The four points on a valid input *)

Section ValidInput.

Variables (A80 r0 r45 r90 t : R) (A80min : option R).
Hypothesis valid : Spec.valid_input A80 r0 r45 r90 t A80min.

Lemma valid_r_pos : 0 < Spec.NormalAnisotropy r0 r45 r90.
Proof.
  destruct valid as (_ & H0 & H45 & H90 & _).
  unfold Spec.NormalAnisotropy. lra.
Qed.

Lemma valid_effective_pos : 0 < Spec.effective_A80min A80 A80min.
Proof.
  destruct valid as (HA & _ & _ & _ & _ & Hm).
  unfold Spec.effective_A80min.
  destruct A80min as [v |]; [| exact HA].
  destruct (Req_dec_T v 0); lra.
Qed.

(** The model a valid input is built into. *)
Lemma init_valid :
  init A80 r0 r45 r90 t A80min =
    Returns
      (let r := Spec.NormalAnisotropy r0 r45 r90 in
       let A := Spec.effective_A80min A80 A80min in
       mkFLCPredictor A80 r0 r45 r90 r t
         match A80min with Some v => v | None => A80 end
         {| eps2 := Spec.TE_eps2 A80 r t; eps1 := Spec.TE_eps1 A80 r t |}
         {| eps2 := 0; eps1 := 0.0084 * A80 + 0.0017 * A80 * (t - 1) |}
         (let e := if Rle_dec t (Spec.t_trans A80)
                   then Spec.IM_thin A80 t else Spec.IM_thick A80 in
          {| eps2 := 0.75 * e; eps1 := e |})
         (let e := if Rle_dec t (Spec.t_trans A)
                   then Spec.BI_thin A t else Spec.BI_thick A in
          {| eps2 := e; eps1 := e |})).
Proof.
  pose proof valid_r_pos as Hr.
  destruct valid as (HA & H0 & H45 & H90 & _ & Hm).
  destruct (init_nonneg A80 r0 r45 r90 t A80min) as (s & Es & E);
    [lra | lra | exact Hm |].
  rewrite calculate_TE_strains_valid in Es by assumption.
  injection Es as <-. exact E.
Qed.

End ValidInput.

(** C2: on a valid input the constructor returns a model whose [r] is
    [(r0 + 2*r45 + r90) / 4] and whose TE point is
    [(eps2, eps1) = (-SVL*ratio/denom, (1+ratio)*SVL/denom)], with
    [SVL = 0.0626*A80^0.567 + (t-1)*(0.12 - 0.0024*A80)],
    [ratio = 0.797*r^0.701] and [denom = sqrt (1 + ratio^2)]. *)
Theorem TE_point_formula (A80 r0 r45 r90 t : R) (A80min : option R) :
  Spec.valid_input A80 r0 r45 r90 t A80min ->
  exists m,
    init A80 r0 r45 r90 t A80min = Returns m /\
    r m = (r0 + 2 * r45 + r90) / 4 /\
    let SVL := 0.0626 * Rpower A80 0.567 + (t - 1) * (0.12 - 0.0024 * A80) in
    let ratio := 0.797 * Rpower (r m) 0.701 in
    let denom := sqrt (1 + ratio * ratio) in
    (eps2 (TE m), eps1 (TE m)) =
      (- SVL * ratio / denom, (1 + ratio) * SVL / denom).
Proof.
  intros valid. eexists. split; [apply init_valid; exact valid |].
  split; reflexivity.
Qed.

Lemma TE_point_formula_witness :
  exists m,
    init 40.8 1.769 1.661 2.225 1.2 None = Returns m /\
    r m = (1.769 + 2 * 1.661 + 2.225) / 4 /\
    let SVL := 0.0626 * Rpower 40.8 0.567 + (1.2 - 1) * (0.12 - 0.0024 * 40.8) in
    let ratio := 0.797 * Rpower (r m) 0.701 in
    let denom := sqrt (1 + ratio * ratio) in
    (eps2 (TE m), eps1 (TE m)) =
      (- SVL * ratio / denom, (1 + ratio) * SVL / denom).
Proof.
  apply (TE_point_formula 40.8 1.769 1.661 2.225 1.2 None).
  unfold Spec.valid_input. repeat split; lra.
Defined.

(** C3: on a valid input the PS point has [eps2 = 0] and
    [eps1 = 0.0084*A80 + 0.0017*A80*(t-1)]. *)
Theorem PS_point_formula (A80 r0 r45 r90 t : R) (A80min : option R) :
  Spec.valid_input A80 r0 r45 r90 t A80min ->
  exists m,
    init A80 r0 r45 r90 t A80min = Returns m /\
    eps2 (PS m) = 0 /\
    eps1 (PS m) = 0.0084 * A80 + 0.0017 * A80 * (t - 1).
Proof.
  intros valid. eexists. split; [apply init_valid; exact valid |].
  split; reflexivity.
Qed.

Lemma PS_point_formula_witness :
  exists m,
    init 40.8 1.769 1.661 2.225 1.2 None = Returns m /\
    eps2 (PS m) = 0 /\
    eps1 (PS m) = 0.0084 * 40.8 + 0.0017 * 40.8 * (1.2 - 1).
Proof.
  apply (PS_point_formula 40.8 1.769 1.661 2.225 1.2 None).
  unfold Spec.valid_input. repeat split; lra.
Defined.

(** C4: on a valid input the BI point has [eps1 = eps2]; with [A] the
    supplied [A80min], or [A80] when that is absent or zero, and
    [t_trans = 1.5 - (0.00215*A)/(0.6 + 0.00285*A)], its [eps1] is
    [0.00215*A + 0.25 + 0.00285*A*t] when [t <= t_trans] (the boundary
    included) and [0.005*A + 0.25] otherwise. *)
Theorem BI_point_formula (A80 r0 r45 r90 t : R) (A80min : option R) :
  Spec.valid_input A80 r0 r45 r90 t A80min ->
  let A := match A80min with
           | None => A80
           | Some v => if Req_dec_T v 0 then A80 else v
           end in
  let t_trans := 1.5 - (0.00215 * A) / (0.6 + 0.00285 * A) in
  exists m,
    init A80 r0 r45 r90 t A80min = Returns m /\
    eps1 (BI m) = eps2 (BI m) /\
    (t <= t_trans -> eps1 (BI m) = 0.00215 * A + 0.25 + 0.00285 * A * t) /\
    (t = t_trans -> eps1 (BI m) = 0.00215 * A + 0.25 + 0.00285 * A * t) /\
    (t_trans < t -> eps1 (BI m) = 0.005 * A + 0.25).
Proof.
  intros valid A t_trans. eexists. split; [apply init_valid; exact valid |].
  cbn [BI eps1 eps2]. fold (Spec.effective_A80min A80 A80min).
  change (Spec.effective_A80min A80 A80min) with A.
  change (Spec.t_trans A) with t_trans.
  unfold Spec.BI_thin, Spec.BI_thick.
  destruct (Rle_dec t t_trans) as [L | N]; repeat split; intros; lra.
Qed.

Lemma BI_point_formula_witness :
  exists m,
    init 40.8 1.769 1.661 2.225 1.2 (Some 0) = Returns m /\
    eps1 (BI m) = eps2 (BI m) /\
    eps1 (BI m) = 0.00215 * 40.8 + 0.25 + 0.00285 * 40.8 * 1.2.
Proof.
  destruct (BI_point_formula 40.8 1.769 1.661 2.225 1.2 (Some 0))
    as (m & E & H12 & Hthin & _).
  - unfold Spec.valid_input. repeat split; lra.
  - exists m. split; [exact E |]. split; [exact H12 |].
    destruct (Req_dec_T 0 0) as [_ | N]; [| now destruct N].
    apply Hthin. lra.
Defined.

(** C5: on a valid input the IM point has [eps2 = 0.75 * eps1]; with
    [t_trans = 1.5 - (0.00215*A80)/(0.6 + 0.00285*A80)], computed from [A80]
    whatever [A80min] is, its [eps1] is
    [0.0062*A80 + 0.18 + 0.0027*A80*(t-1)] when [t <= t_trans] (the boundary
    included) and [0.0062*A80 + 0.18] otherwise. *)
Theorem IM_point_formula (A80 r0 r45 r90 t : R) (A80min : option R) :
  Spec.valid_input A80 r0 r45 r90 t A80min ->
  let t_trans := 1.5 - (0.00215 * A80) / (0.6 + 0.00285 * A80) in
  exists m,
    init A80 r0 r45 r90 t A80min = Returns m /\
    eps2 (IM m) = 0.75 * eps1 (IM m) /\
    (t <= t_trans ->
       eps1 (IM m) = 0.0062 * A80 + 0.18 + 0.0027 * A80 * (t - 1)) /\
    (t = t_trans ->
       eps1 (IM m) = 0.0062 * A80 + 0.18 + 0.0027 * A80 * (t - 1)) /\
    (t_trans < t -> eps1 (IM m) = 0.0062 * A80 + 0.18).
Proof.
  intros valid t_trans. eexists. split; [apply init_valid; exact valid |].
  cbn [IM eps1 eps2].
  change (Spec.t_trans A80) with t_trans.
  unfold Spec.IM_thin, Spec.IM_thick.
  destruct (Rle_dec t t_trans) as [L | N]; repeat split; intros; lra.
Qed.

Lemma IM_point_formula_witness :
  exists m,
    init 40.8 1.769 1.661 2.225 1.2 (Some 30) = Returns m /\
    eps2 (IM m) = 0.75 * eps1 (IM m) /\
    eps1 (IM m) = 0.0062 * 40.8 + 0.18 + 0.0027 * 40.8 * (1.2 - 1).
Proof.
  destruct (IM_point_formula 40.8 1.769 1.661 2.225 1.2 (Some 30))
    as (m & E & H12 & Hthin & _).
  - unfold Spec.valid_input. repeat split; lra.
  - exists m. split; [exact E |]. split; [exact H12 |].
    apply Hthin. lra.
Defined.

(** C10: on a valid input the three strains the TE formula computes sum to
    zero: [eps1_TE + eps2_TE + eps3_TE = 0], with
    [eps3 = -SVL/denom], [eps2 = -SVL*ratio/denom] and
    [eps1 = (1+ratio)*SVL/denom]; [eps2] and [eps1] are the point returned. *)
Theorem TE_incompressible (A80 r0 r45 r90 t : R) (A80min : option R) :
  Spec.valid_input A80 r0 r45 r90 t A80min ->
  let r := (r0 + 2 * r45 + r90) / 4 in
  exists s,
    calculate_TE_strains A80 r t = Returns s /\
    calculate_TE_point A80 r t =
      Returns {| eps2 := eps2_TE s; eps1 := eps1_TE s |} /\
    eps3_TE s = - SVL_t s / denominator s /\
    eps2_TE s = - SVL_t s * strain_ratio s / denominator s /\
    eps1_TE s = (1 + strain_ratio s) * SVL_t s / denominator s /\
    eps1_TE s + eps2_TE s + eps3_TE s = 0.
Proof.
  intros valid r.
  pose proof (valid_r_pos _ _ _ _ _ _ valid) as Hr.
  destruct valid as (HA & _).
  fold (Spec.NormalAnisotropy r0 r45 r90) in r.
  pose proof (calculate_TE_strains_valid A80 r t HA Hr) as E.
  eexists. split; [exact E |].
  split; [unfold calculate_TE_point; rewrite E; reflexivity |].
  cbn [eps3_TE eps2_TE eps1_TE SVL_t strain_ratio denominator].
  repeat split.
  unfold Spec.TE_eps1, Spec.TE_eps2, Spec.TE_eps3.
  pose proof (denom_pos (Spec.ratio r)) as Hd.
  fold (Spec.denom r) in Hd. field. lra.
Qed.

Lemma TE_incompressible_witness :
  exists s,
    calculate_TE_strains 40.8 ((1.769 + 2 * 1.661 + 2.225) / 4) 1.2 = Returns s /\
    eps1_TE s + eps2_TE s + eps3_TE s = 0.
Proof.
  destruct (TE_incompressible 40.8 1.769 1.661 2.225 1.2 None)
    as (s & E & _ & _ & _ & _ & H).
  - unfold Spec.valid_input. repeat split; lra.
  - exists s. split; [exact E | exact H].
Defined.

(** ** The two thickness regimes at the transition thickness *)

Lemma t_trans_minus_one (A : R) :
  0 <= A -> (Spec.t_trans A - 1) * (0.6 + 0.00285 * A) = 0.3 - 0.000725 * A.
Proof.
  intros HA. unfold Spec.t_trans.
  set (D := 0.6 + 0.00285 * A).
  assert (HD : D <> 0) by (unfold D; lra).
  assert (E : 0.00215 * A / D * D = 0.00215 * A)
    by (unfold Rdiv; rewrite Rmult_assoc, Rinv_l by exact HD; ring).
  replace ((1.5 - 0.00215 * A / D - 1) * D)
    with (0.5 * D - 0.00215 * A / D * D) by lra.
  rewrite E. unfold D. lra.
Qed.

Lemma t_trans_is_one (A : R) : 0 <= A -> (Spec.t_trans A = 1 <-> A = 12000 / 29).
Proof.
  intros HA. pose proof (t_trans_minus_one A HA) as H. split; intros E.
  - rewrite E in H. lra.
  - assert (H0 : (Spec.t_trans A - 1) * (0.6 + 0.00285 * A) = 0) by lra.
    apply Rmult_integral in H0. destruct H0; lra.
Qed.

(** C6, as stated, fails: at [A80 = 100] the transition thickness is
    [445/354] (about 1.257); there the constructor takes the thin-sheet
    branch of both formulas, and the thin-sheet values exceed the thick-sheet
    values [0.75] (BI) and [0.8] (IM) by more than [0.07] and [0.06]. *)
Lemma regimes_disagree_at_transition :
  Spec.valid_input 100 1 1 1 (445 / 354) None /\
  445 / 354 = 1.5 - (0.00215 * 100) / (0.6 + 0.00285 * 100) /\
  (exists m,
     init 100 1 1 1 (445 / 354) None = Returns m /\
     eps1 (BI m) = Spec.BI_thin 100 (445 / 354) /\
     eps1 (IM m) = Spec.IM_thin 100 (445 / 354)) /\
  Spec.BI_thick 100 = 0.75 /\
  Spec.IM_thick 100 = 0.8 /\
  Spec.BI_thin 100 (445 / 354) - Spec.BI_thick 100 > 0.07 /\
  Spec.IM_thin 100 (445 / 354) - Spec.IM_thick 100 > 0.06.
Proof.
  assert (V : Spec.valid_input 100 1 1 1 (445 / 354) None)
    by (unfold Spec.valid_input; repeat split; lra).
  split; [exact V |]. split; [lra |]. split.
  - eexists. split; [apply init_valid; exact V |].
    cbn [BI IM eps1 Spec.effective_A80min].
    destruct (Rle_dec (445 / 354) (Spec.t_trans 100)) as [_ | N].
    + split; reflexivity.
    + exfalso. apply N. unfold Spec.t_trans. lra.
  - unfold Spec.BI_thin, Spec.BI_thick, Spec.IM_thin, Spec.IM_thick.
    repeat split; lra.
Qed.

(** C6 (amended): at [t = t_trans] the code takes the thin-sheet branch, and
    the two branches are not continuous there: the thin-sheet value differs
    from the thick-sheet value by [0.00285*A*(t_trans - 1)] for BI and by
    [0.0027*A*(t_trans - 1)] for IM, where [A] is the positive elongation the
    formula uses.  The branches agree exactly when [A = 12000/29] (about
    413.8), the one elongation whose transition thickness is 1. *)
Theorem regimes_at_transition (A : R) :
  0 < A ->
  let tt := Spec.t_trans A in
  (exists bi, calculate_BI_point A tt None = Returns bi /\
              eps1 bi = Spec.BI_thin A tt) /\
  (exists im, calculate_IM_point A tt = Returns im /\
              eps1 im = Spec.IM_thin A tt) /\
  Spec.BI_thin A tt - Spec.BI_thick A = 0.00285 * A * (tt - 1) /\
  Spec.IM_thin A tt - Spec.IM_thick A = 0.0027 * A * (tt - 1) /\
  (Spec.BI_thin A tt = Spec.BI_thick A <-> A = 12000 / 29) /\
  (Spec.IM_thin A tt = Spec.IM_thick A <-> A = 12000 / 29).
Proof.
  intros HA tt.
  assert (Hbi : Spec.BI_thin A tt - Spec.BI_thick A = 0.00285 * A * (tt - 1))
    by (unfold Spec.BI_thin, Spec.BI_thick; lra).
  assert (Him : Spec.IM_thin A tt - Spec.IM_thick A = 0.0027 * A * (tt - 1))
    by (unfold Spec.IM_thin, Spec.IM_thick; lra).
  pose proof (t_trans_is_one A (Rlt_le _ _ HA)) as H1. fold tt in H1.
  split; [| split; [| split; [exact Hbi | split; [exact Him | split]]]].
  - eexists. split.
    + rewrite calculate_BI_point_regimes; cbn [Py.or_else]; [reflexivity | lra].
    + cbn [eps1]. fold tt.
      destruct (Rle_dec tt tt) as [_ | N]; [reflexivity | exfalso; apply N; lra].
  - eexists. split.
    + rewrite calculate_IM_point_regimes by lra. reflexivity.
    + cbn [eps1]. fold tt.
      destruct (Rle_dec tt tt) as [_ | N]; [reflexivity | exfalso; apply N; lra].
  - rewrite <- H1. split; intros E.
    + assert (H0 : 0.00285 * A * (tt - 1) = 0) by lra.
      apply Rmult_integral in H0. destruct H0; lra.
    + rewrite E in Hbi |- *. lra.
  - rewrite <- H1. split; intros E.
    + assert (H0 : 0.0027 * A * (tt - 1) = 0) by lra.
      apply Rmult_integral in H0. destruct H0; lra.
    + rewrite E in Him |- *. lra.
Qed.

Lemma regimes_at_transition_witness :
  Spec.BI_thin 100 (Spec.t_trans 100) - Spec.BI_thick 100 =
    0.00285 * 100 * (Spec.t_trans 100 - 1) /\
  Spec.IM_thin 100 (Spec.t_trans 100) - Spec.IM_thick 100 =
    0.0027 * 100 * (Spec.t_trans 100 - 1).
Proof.
  destruct (regimes_at_transition 100) as (_ & _ & Hbi & Him & _).
  - lra.
  - split; [exact Hbi | exact Him].
Defined.

(** ** Sampling with [np.linspace] *)

Section Linspace.

Variables (a b : R) (k : nat).
Hypothesis k_pos : (1 <= k)%nat.

(** With [k + 1 >= 2] samples: the first [k] from the arithmetic
    progression, then [stop] itself. *)
Lemma linspace_shape :
  Np.linspace a b (S k) =
    map (fun i => INR i * ((b - a) / INR k) + a) (seq 0 k) ++ [b].
Proof.
  unfold Np.linspace, Np.set_last.
  replace (S k - 1)%nat with k by lia.
  destruct (Nat.ltb_spec 1 (S k)) as [_ | H]; [| lia].
  rewrite seq_S, map_app. cbn [map]. now rewrite removelast_last.
Qed.

Lemma linspace_length : List.length (Np.linspace a b (S k)) = S k.
Proof.
  rewrite linspace_shape, length_app, length_map, length_seq.
  cbn [List.length]. lia.
Qed.

Lemma linspace_nth (i : nat) :
  (i < S k)%nat -> nth i (Np.linspace a b (S k)) 0 = a + INR i * ((b - a) / INR k).
Proof.
  intros Hi. rewrite linspace_shape.
  assert (Hlen : List.length (map (fun i => INR i * ((b - a) / INR k) + a) (seq 0 k)) = k)
    by now rewrite length_map, length_seq.
  destruct (Nat.eq_dec i k) as [-> | Hne].
  - rewrite app_nth2 by lia. rewrite Hlen, Nat.sub_diag. cbn [nth].
    field. apply not_0_INR. lia.
  - rewrite app_nth1 by lia.
    rewrite nth_indep with (d' := INR 0 * ((b - a) / INR k) + a) by lia.
    rewrite (map_nth (fun i => INR i * ((b - a) / INR k) + a) (seq 0 k) 0%nat i).
    rewrite seq_nth by lia. cbn [Nat.add]. ring.
Qed.

Lemma linspace_evenly_spaced :
  Spec.evenly_spaced a b (S k) (Np.linspace a b (S k)).
Proof.
  split; [exact linspace_length |].
  intros i Hi. rewrite linspace_nth by exact Hi.
  replace (S k - 1)%nat with k by lia. reflexivity.
Qed.

Lemma linspace_first : hd 0 (Np.linspace a b (S k)) = a.
Proof.
  rewrite linspace_shape. destruct k as [| k']; [lia |].
  cbn [seq map app hd INR]. ring.
Qed.

Lemma linspace_last : last (Np.linspace a b (S k)) 0 = b.
Proof. rewrite linspace_shape. apply last_last. Qed.

End Linspace.

(** ** The extrapolator *)

Section FourPoints.

Variables (x0 x1 x2 x3 y0 y1 y2 y3 : R).

(** On four points the extrapolator raises nothing. *)
Lemma extrapolate_four_points :
  extrapolate_FLC_dynamically [x0; x1; x2; x3] [y0; y1; y2; y3] =
    Returns
      (let slope_left :=
         if Py.ne_dec x1 x0 then (y1 - y0) / (x1 - x0) else 0 in
       let intercept_left := y0 - slope_left * x0 in
       let slope_right :=
         if Py.ne_dec x3 x2 then (y3 - y2) / (x3 - x2) else 0 in
       let intercept_right := y3 - slope_right * x3 in
       let xl := Np.linspace (round_down_to_nearest_tenth x0 - 0.1) x0 50 in
       let xr := Np.linspace x3 (round_up_to_nearest_tenth x3 + 0.1) 50 in
       ((xl, map (fun x => slope_left * x + intercept_left) xl),
        (xr, map (fun x => slope_right * x + intercept_right) xr))).
Proof.
  unfold extrapolate_FLC_dynamically.
  change (Py.index [x0; x1; x2; x3] 0) with (Returns x0).
  change (Py.index [x0; x1; x2; x3] 1) with (Returns x1).
  change (Py.index [x0; x1; x2; x3] (-2)) with (Returns x2).
  change (Py.index [x0; x1; x2; x3] (-1)) with (Returns x3).
  change (Py.index [y0; y1; y2; y3] 0) with (Returns y0).
  change (Py.index [y0; y1; y2; y3] 1) with (Returns y1).
  change (Py.index [y0; y1; y2; y3] (-2)) with (Returns y2).
  change (Py.index [y0; y1; y2; y3] (-1)) with (Returns y3).
  cbn [bind].
  destruct (Py.ne_dec x1 x0) as [Nl | El];
    [rewrite truediv_Returns by (intros C; apply Nl; lra) |];
    cbn [bind];
    (destruct (Py.ne_dec x3 x2) as [Nr | Er];
       [rewrite truediv_Returns by (intros C; apply Nr; lra) |]);
    reflexivity.
Qed.

End FourPoints.

Lemma round_down_floor_to_tenth (x : R) :
  round_down_to_nearest_tenth x = Spec.floor_to_tenth x.
Proof.
  unfold round_down_to_nearest_tenth, Spec.floor_to_tenth, Np.floor.
  now rewrite (Rmult_comm x 10).
Qed.

Lemma round_up_ceil_to_tenth (x : R) :
  round_up_to_nearest_tenth x = Spec.ceil_to_tenth x.
Proof.
  unfold round_up_to_nearest_tenth, Spec.ceil_to_tenth, Np.ceil.
  now rewrite (Rmult_comm x 10).
Qed.

(** The boundaries lie outside the points: at least one tenth, less than two. *)
Lemma left_limit_bounds (x : R) :
  x - 0.2 < round_down_to_nearest_tenth x - 0.1 <= x - 0.1.
Proof.
  unfold round_down_to_nearest_tenth.
  destruct (floor_spec (x * 10)) as [H1 H2]. lra.
Qed.

Lemma right_limit_bounds (x : R) :
  x + 0.1 <= round_up_to_nearest_tenth x + 0.1 < x + 0.2.
Proof.
  unfold round_up_to_nearest_tenth.
  destruct (ceil_spec (x * 10)) as [H1 H2]. lra.
Qed.

(** C7: on every four-point input the extrapolator returns a left segment
    of 50 evenly spaced abscissas from [floor(10*x_TE)/10 - 0.1] (the first)
    to [x_TE] (the last), and a right segment of 50 evenly spaced abscissas
    from [x_BI] (the first) to [ceil(10*x_BI)/10 + 0.1] (the last); every
    ordinate is [slope*x + intercept] of the line of the end segment, TE-PS
    on the left and IM-BI on the right. *)
Theorem extrapolation_domain_and_sampling (x0 x1 x2 x3 y0 y1 y2 y3 : R) :
  let slope_left := if Py.ne_dec x1 x0 then (y1 - y0) / (x1 - x0) else 0 in
  let intercept_left := y0 - slope_left * x0 in
  let slope_right := if Py.ne_dec x3 x2 then (y3 - y2) / (x3 - x2) else 0 in
  let intercept_right := y3 - slope_right * x3 in
  let left_limit := IZR (Int_part (10 * x0)) / 10 - 0.1 in
  let right_limit := - IZR (Int_part (- (10 * x3))) / 10 + 0.1 in
  exists xl yl xr yr,
    extrapolate_FLC_dynamically [x0; x1; x2; x3] [y0; y1; y2; y3] =
      Returns ((xl, yl), (xr, yr)) /\
    Spec.evenly_spaced left_limit x0 50 xl /\
    hd 0 xl = left_limit /\ last xl 0 = x0 /\
    Spec.evenly_spaced x3 right_limit 50 xr /\
    hd 0 xr = x3 /\ last xr 0 = right_limit /\
    yl = map (fun x => slope_left * x + intercept_left) xl /\
    yr = map (fun x => slope_right * x + intercept_right) xr.
Proof.
  intros slope_left intercept_left slope_right intercept_right
    left_limit right_limit.
  do 4 eexists. split; [apply extrapolate_four_points |].
  rewrite round_down_floor_to_tenth, round_up_ceil_to_tenth.
  change (Spec.floor_to_tenth x0 - 0.1) with left_limit.
  replace (Spec.ceil_to_tenth x3 + 0.1) with right_limit
    by (unfold right_limit, Spec.ceil_to_tenth; reflexivity).
  split; [apply (linspace_evenly_spaced left_limit x0 49); lia |].
  split; [apply linspace_first; lia |].
  split; [apply linspace_last; lia |].
  split; [apply (linspace_evenly_spaced x3 right_limit 49); lia |].
  split; [apply linspace_first; lia |].
  split; [apply linspace_last; lia |].
  split; reflexivity.
Qed.



(** ** The accessor *)

(** C9: [get_FLC_points], called twice on a model, returns the same mapping
    both times, with the keys in the order TE, PS, IM, BI and each value the
    pair [(eps2, eps1)] of that point; the model is the same object state
    after each call. *)
Theorem get_FLC_points_idempotent (self : FLCPredictor) :
  let (first, self1) := get_FLC_points self in
  let (second, self2) := get_FLC_points self1 in
  first = second /\
  map fst first = ["TE"; "PS"; "IM"; "BI"]%string /\
  map snd first =
    [ (eps2 (TE self), eps1 (TE self)); (eps2 (PS self), eps1 (PS self));
      (eps2 (IM self), eps1 (IM self)); (eps2 (BI self), eps1 (BI self)) ] /\
  self1 = self /\ self2 = self.
Proof. cbn. repeat split. Qed.

(** ** Runs on concrete inputs *)

(** The inputs of the script's example: [r = 1.829] and the PS point. *)
Example reference_defaults :
  exists m,
    init 40.8 1.769 1.661 2.225 1.2 None = Returns m /\
    r m = 1.829 /\ A80min m = 40.8 /\
    PS m = {| eps2 := 0; eps1 := 0.356592 |} /\
    eps1 (IM m) = 0.454992 /\ eps2 (IM m) = 0.341244 /\
    eps1 (BI m) = 0.477256 /\ eps2 (BI m) = 0.477256.
Proof.
  eexists. split.
  - apply init_valid. unfold Spec.valid_input. repeat split; lra.
  - cbn [r A80min PS IM BI eps1 eps2 Spec.effective_A80min].
    unfold Spec.NormalAnisotropy, Spec.IM_thin, Spec.BI_thin.
    destruct (Rle_dec 1.2 (Spec.t_trans 40.8)) as [_ | N].
    + repeat split; try lra. f_equal; lra.
    + exfalso. apply N. unfold Spec.t_trans. lra.
Qed.

(** The one elongation at which the Python division of [t_trans] fails. *)
Example init_zero_division :
  init 40.8 1.769 1.661 2.225 1.2 (Some (-4000 / 19)) = Raises ZeroDivisionError.
Proof.
  unfold init, _calculate_all_points, calculate_TE_point.
  destruct (calculate_TE_strains_nonneg 40.8 ((1.769 + 2 * 1.661 + 2.225) / 4) 1.2)
    as (p & q & _ & _ & _ & _ & E); [lra | lra |].
  rewrite E. cbn [bind calculate_PS_point].
  rewrite calculate_IM_point_regimes by lra. cbn [bind].
  unfold calculate_BI_point. cbn [Py.or_else].
  destruct (Req_dec_T (-4000 / 19) 0) as [E0 | _]; [lra |].
  replace (0.6 + 0.00285 * (-4000 / 19)) with 0 by lra.
  now rewrite truediv_Raises.
Qed.

(** The extrapolator indexes positions 0, 1, -2 and -1: a single point is
    not enough. *)
Example extrapolate_one_point (x y : R) :
  extrapolate_FLC_dynamically [x] [y] = Raises IndexError.
Proof. reflexivity. Qed.

(** * Further properties of the code *)

(** ** The [A80min] fallbacks *)

(** X1: [calculate_BI_point] treats an absent [A80min], a zero [A80min] and
    an [A80min] equal to [A80] alike; and when [A80min] is present and not
    zero, its [A80] argument is never read. *)
Theorem calculate_BI_point_fallback (A80 t : R) :
  calculate_BI_point A80 t (Some 0) = calculate_BI_point A80 t None /\
  calculate_BI_point A80 t (Some A80) = calculate_BI_point A80 t None /\
  forall v A80', v <> 0 ->
    calculate_BI_point A80 t (Some v) = calculate_BI_point A80' t (Some v).
Proof.
  unfold calculate_BI_point, Py.or_else. repeat split.
  - destruct (Req_dec_T 0 0) as [_ | N]; [reflexivity | now destruct N].
  - destruct (Req_dec_T A80 0); reflexivity.
  - intros v A80' Hv. destruct (Req_dec_T v 0); [contradiction | reflexivity].
Qed.

(** X2: a zero [A80min] given to the constructor is stored as it is, and is
    not what the BI point is computed from: the model has the four points of
    the model built without [A80min], whose stored [A80min] is [A80]. *)
Theorem init_zero_A80min_stored_not_used (A80 r0 r45 r90 t : R) :
  0 < A80 -> 0 <= r0 + 2 * r45 + r90 ->
  exists m0 m,
    init A80 r0 r45 r90 t (Some 0) = Returns m0 /\
    init A80 r0 r45 r90 t None = Returns m /\
    A80min m0 = 0 /\ A80min m = A80 /\ A80min m0 <> A80min m /\
    TE m0 = TE m /\ PS m0 = PS m /\ IM m0 = IM m /\ BI m0 = BI m.
Proof.
  intros HA Hr.
  destruct (init_nonneg A80 r0 r45 r90 t (Some 0)) as (s0 & Es0 & E0);
    [lra | lra | cbn; lra |].
  destruct (init_nonneg A80 r0 r45 r90 t None) as (s & Es & E);
    [lra | lra | exact I |].
  rewrite Es0 in Es. injection Es as <-.
  do 2 eexists. split; [exact E0 |]. split; [exact E |].
  cbn [A80min TE PS IM BI Spec.effective_A80min].
  destruct (Req_dec_T 0 0) as [_ | N]; [| now destruct N].
  repeat split; lra.
Qed.

Lemma init_zero_A80min_stored_not_used_witness :
  exists m0 m,
    init 40.8 1.769 1.661 2.225 1.2 (Some 0) = Returns m0 /\
    init 40.8 1.769 1.661 2.225 1.2 None = Returns m /\
    A80min m0 = 0 /\ A80min m = 40.8 /\ BI m0 = BI m.
Proof.
  destruct (init_zero_A80min_stored_not_used 40.8 1.769 1.661 2.225 1.2)
    as (m0 & m & E0 & E & H0 & H & _ & _ & _ & _ & HBI); [lra | lra |].
  exists m0, m. repeat split; assumption.
Defined.

(** ** When the constructor and the calculators fail *)

Lemma transition_divisor_zero (A : R) :
  0.6 + 0.00285 * A = 0 <-> A = -4000 / 19.
Proof. split; intros H; lra. Qed.

Lemma calculate_BI_point_outcome (A80 t : R) (A80min : option R) :
  (calculate_BI_point A80 t A80min = Raises ZeroDivisionError <->
     Py.or_else A80min A80 = -4000 / 19) /\
  (Py.or_else A80min A80 <> -4000 / 19 ->
     exists p, calculate_BI_point A80 t A80min = Returns p).
Proof.
  split.
  - split; intros H.
    + destruct (Req_dec_T (0.6 + 0.00285 * Py.or_else A80min A80) 0) as [E | N];
        [lra |].
      rewrite calculate_BI_point_regimes in H by exact N. discriminate.
    + unfold calculate_BI_point.
      replace (0.6 + 0.00285 * Py.or_else A80min A80) with 0 by lra.
      now rewrite truediv_Raises.
  - intros H. rewrite calculate_BI_point_regimes by lra. eexists; reflexivity.
Qed.

(** X3: called on their own, [calculate_IM_point] and [calculate_BI_point]
    raise [ZeroDivisionError] exactly when the elongation they use is
    [-4000/19] (the zero of [0.6 + 0.00285*A]); on every other elongation
    they return a point, whatever the thickness. *)
Theorem calculators_raise_iff (A80 t : R) (A80min : option R) :
  (calculate_IM_point A80 t = Raises ZeroDivisionError <-> A80 = -4000 / 19) /\
  (A80 <> -4000 / 19 -> exists p, calculate_IM_point A80 t = Returns p) /\
  (calculate_BI_point A80 t A80min = Raises ZeroDivisionError <->
     Py.or_else A80min A80 = -4000 / 19) /\
  (Py.or_else A80min A80 <> -4000 / 19 ->
     exists p, calculate_BI_point A80 t A80min = Returns p).
Proof.
  split; [| split; [| apply calculate_BI_point_outcome]].
  - split; intros H.
    + destruct (Req_dec_T (0.6 + 0.00285 * A80) 0) as [E | N]; [lra |].
      rewrite calculate_IM_point_regimes in H by exact N. discriminate.
    + unfold calculate_IM_point.
      replace (0.6 + 0.00285 * A80) with 0 by lra.
      now rewrite truediv_Raises.
  - intros H. rewrite calculate_IM_point_regimes by lra. eexists; reflexivity.
Qed.

(** On a non-negative [A80] and [r] the constructor gets as far as the BI
    point. *)
Lemma init_up_to_BI (A80 r0 r45 r90 t : R) (A80min : option R) :
  0 <= A80 -> 0 <= r0 + 2 * r45 + r90 ->
  exists te ps im,
    init A80 r0 r45 r90 t A80min =
      bind (calculate_BI_point A80 t
              (Some match A80min with Some v => v | None => A80 end))
        (fun bi =>
           Returns (mkFLCPredictor A80 r0 r45 r90 ((r0 + 2 * r45 + r90) / 4) t
                      match A80min with Some v => v | None => A80 end
                      te ps im bi)).
Proof.
  intros HA Hr.
  assert (Hr' : 0 <= (r0 + 2 * r45 + r90) / 4) by lra.
  destruct (calculate_TE_strains_nonneg A80 _ t HA Hr')
    as (p & q & _ & _ & _ & _ & E).
  do 3 eexists.
  unfold init, _calculate_all_points, calculate_TE_point.
  rewrite E. cbn [bind calculate_PS_point].
  rewrite calculate_IM_point_regimes by lra. cbn [bind].
  destruct (calculate_BI_point A80 t _); reflexivity.
Qed.

Lemma bind_Raises_iff {A B : Type} (c : outcome A) (f : A -> B) (e : exn) :
  bind c (fun a => Returns (f a)) = Raises e <-> c = Raises e.
Proof.
  destruct c as [a | e' | ]; cbn [bind]; split; intros H;
    try discriminate; injection H as ->; reflexivity.
Qed.

(** X4: on a non-negative [A80] and a sum [r0 + 2*r45 + r90] between 0 and
    [4 * 10^100], the constructor raises [ZeroDivisionError] exactly when
    [A80min] is given as [-4000/19], and returns a model on every other
    [A80min].  The upper bound keeps [r] far inside the range where the
    float power [strain_ratio ** 2] cannot overflow; the reals of this
    development have no overflow, so the proof does not need it. *)
Theorem init_raises_iff (A80 r0 r45 r90 t : R) (A80min : option R) :
  0 <= A80 -> 0 <= r0 + 2 * r45 + r90 <= 4 * 10 ^ 100 ->
  (init A80 r0 r45 r90 t A80min = Raises ZeroDivisionError <->
     A80min = Some (-4000 / 19)) /\
  (A80min <> Some (-4000 / 19) ->
     exists m, init A80 r0 r45 r90 t A80min = Returns m).
Proof.
  intros HA [Hr _].
  destruct (init_up_to_BI A80 r0 r45 r90 t A80min HA Hr) as (te & ps & im & E).
  rewrite E. clear E.
  set (Am := match A80min with Some v => v | None => A80 end).
  assert (HAm : Py.or_else (Some Am) A80 = -4000 / 19 <->
                A80min = Some (-4000 / 19)).
  { unfold Am, Py.or_else. destruct A80min as [v |].
    - destruct (Req_dec_T v 0) as [-> | N]; split; intros H; try lra.
      + injection H as H. lra.
      + now subst v.
      + injection H as H. exact H.
    - destruct (Req_dec_T A80 0); split; intros H; try lra; discriminate. }
  destruct (calculate_BI_point_outcome A80 t (Some Am)) as (Hiff & Hret).
  split.
  - rewrite <- HAm, <- Hiff. apply bind_Raises_iff.
  - intros H. destruct Hret as (p & Ep).
    + intros C. apply H, HAm, C.
    + rewrite Ep. cbn [bind]. eexists; reflexivity.
Qed.

Lemma init_raises_iff_witness :
  init 40.8 1.769 1.661 2.225 1.2 (Some (-4000 / 19)) = Raises ZeroDivisionError /\
  exists m, init 40.8 1.769 1.661 2.225 1.2 (Some (-210)) = Returns m.
Proof.
  assert (Hb : 0 <= 1.769 + 2 * 1.661 + 2.225 <= 4 * 10 ^ 100).
  { split; [lra |]. apply Rle_trans with (4 * 10 ^ 1); [simpl; lra |].
    apply Rmult_le_compat_l; [lra |]. apply Rle_pow; [lra | lia]. }
  destruct (init_raises_iff 40.8 1.769 1.661 2.225 1.2 (Some (-4000 / 19)))
    as ((_ & H) & _); [lra | exact Hb |].
  destruct (init_raises_iff 40.8 1.769 1.661 2.225 1.2 (Some (-210)))
    as (_ & H'); [lra | exact Hb |].
  split; [apply H; reflexivity |].
  apply H'. intros C. injection C as C. lra.
Defined.

Lemma pow_neg_base_0701 (x : R) : x < 0 -> Py.pow x 0.701 = ComplexValued.
Proof.
  intros Hx. unfold Py.pow.
  destruct (Req_dec_T 0.701 0) as [E | _]; [lra |].
  destruct (Rlt_dec 0 x) as [L | _]; [lra |].
  destruct (Req_dec_T x 0) as [E | _]; [lra |].
  destruct (Py.is_integer 0.701) as [E | _]; [| reflexivity].
  exfalso. apply (not_integer_thousandth 701) with (z := Int_part 0.701).
  - discriminate.
  - rewrite E. lra.
Qed.

Lemma calculate_TE_point_negative_anisotropy (A80 r t : R) :
  0 <= A80 -> r < 0 -> calculate_TE_point A80 r t = ComplexValued.
Proof.
  intros HA Hr.
  destruct (pow_nonneg_base A80 0.567) as (p & Ep & _); [lra | lra |].
  unfold calculate_TE_point, calculate_TE_strains.
  rewrite Ep. cbn [bind]. now rewrite pow_neg_base_0701.
Qed.

(** Where the constructor ends once the TE point is complex. *)
Lemma init_on_complex_TE (A80 r0 r45 r90 t : R) (A80min : option R) :
  calculate_TE_point A80 ((r0 + 2 * r45 + r90) / 4) t = ComplexValued ->
  let Am := Spec.effective_A80min A80 A80min in
  ((A80 = -4000 / 19 \/ Am = -4000 / 19) /\
   init A80 r0 r45 r90 t A80min = Raises ZeroDivisionError) \/
  ((A80 <> -4000 / 19 /\ Am <> -4000 / 19) /\
   init A80 r0 r45 r90 t A80min = ComplexValued).
Proof.
  intros E Am. unfold init. rewrite all_points_complex_TE by exact E.
  cbn [bind calculate_PS_point].
  destruct (Req_dec_T A80 (-4000 / 19)) as [P | NP].
  - left. split; [now left |].
    unfold calculate_IM_point.
    replace (0.6 + 0.00285 * A80) with 0 by lra.
    now rewrite truediv_Raises.
  - rewrite calculate_IM_point_regimes by lra. cbn [bind].
    destruct (Req_dec_T Am (-4000 / 19)) as [P' | NP'].
    + left. split; [now right |].
      unfold calculate_BI_point. rewrite or_else_effective. fold Am.
      replace (0.6 + 0.00285 * Am) with 0 by lra.
      now rewrite truediv_Raises.
    + right. split; [now split |].
      rewrite calculate_BI_point_regimes; rewrite or_else_effective; fold Am;
        [reflexivity | lra].
Qed.



(** ** Where the points of a valid input lie *)

Lemma ratio_pos (r : R) : 0 < Spec.ratio r.
Proof.
  unfold Spec.ratio, Rpower.
  pose proof (exp_pos (0.701 * ln r)). lra.
Qed.

Lemma spec_denom_gt_1 (r : R) : 1 < Spec.denom r.
Proof.
  unfold Spec.denom. rewrite <- sqrt_1 at 1.
  apply sqrt_lt_1_alt. pose proof (ratio_pos r) as H.
  unfold Rsqr. split; [lra | nra].
Qed.

Lemma spec_denom_sqr (r : R) :
  Spec.denom r * Spec.denom r = 1 + Spec.ratio r * Spec.ratio r.
Proof.
  unfold Spec.denom. rewrite sqrt_sqrt; [reflexivity |].
  pose proof (Rle_0_sqr (Spec.ratio r)). lra.
Qed.

(** X6: on a valid input the PS major strain is positive, the IM point has
    [eps1 > 0.18] and [eps2 > 0.135], and the BI point has
    [eps1 = eps2 > 0.25]; so IM and BI lie strictly to the right of PS. *)
Theorem points_lower_bounds (A80 r0 r45 r90 t : R) (A80min : option R) :
  Spec.valid_input A80 r0 r45 r90 t A80min ->
  exists m,
    init A80 r0 r45 r90 t A80min = Returns m /\
    0 < eps1 (PS m) /\
    0.18 < eps1 (IM m) /\ 0.135 < eps2 (IM m) /\
    0.25 < eps1 (BI m) /\ 0.25 < eps2 (BI m) /\
    eps2 (PS m) < eps2 (IM m) /\ eps2 (PS m) < eps2 (BI m).
Proof.
  intros valid. eexists. split; [apply init_valid; exact valid |].
  pose proof (valid_effective_pos _ _ _ _ _ _ valid) as HAm.
  destruct valid as (HA & _ & _ & _ & Ht & _).
  cbn [PS IM BI eps1 eps2].
  set (Am := Spec.effective_A80min A80 A80min) in *.
  unfold Spec.IM_thin, Spec.IM_thick, Spec.BI_thin, Spec.BI_thick.
  assert (HAt : 0 < A80 * t) by now apply Rmult_lt_0_compat.
  assert (HAmt : 0 < Am * t) by now apply Rmult_lt_0_compat.
  destruct (Rle_dec t (Spec.t_trans A80)), (Rle_dec t (Spec.t_trans Am));
    repeat split; lra.
Qed.

Lemma points_lower_bounds_witness :
  exists m,
    init 40.8 1.769 1.661 2.225 1.2 None = Returns m /\
    0 < eps1 (PS m) /\ 0.18 < eps1 (IM m) /\ 0.25 < eps1 (BI m).
Proof.
  destruct (points_lower_bounds 40.8 1.769 1.661 2.225 1.2 None)
    as (m & E & H1 & H2 & _ & H3 & _).
  - unfold Spec.valid_input. repeat split; lra.
  - exists m. repeat split; assumption.
Defined.

(** ** The TE point *)

(** The TE strains are multiples of [SVL_t] by factors that depend on [r]
    alone. *)
Lemma TE_eps_factors (A80 r t : R) :
  exists k2 k1,
    0 < k2 /\ k2 < k1 /\
    Spec.TE_eps2 A80 r t = - k2 * Spec.SVL A80 t /\
    Spec.TE_eps1 A80 r t = k1 * Spec.SVL A80 t /\
    k2 = Spec.ratio r / Spec.denom r /\
    k1 = (1 + Spec.ratio r) / Spec.denom r.
Proof.
  pose proof (ratio_pos r) as Hq. pose proof (spec_denom_gt_1 r) as Hd.
  assert (Hi : 0 < / Spec.denom r) by (apply Rinv_0_lt_compat; lra).
  exists (Spec.ratio r / Spec.denom r), ((1 + Spec.ratio r) / Spec.denom r).
  unfold Spec.TE_eps2, Spec.TE_eps1, Rdiv.
  repeat split; try ring.
  - now apply Rmult_lt_0_compat.
  - apply Rmult_lt_compat_r; [exact Hi | lra].
Qed.

(** The TE point on a positive [A80] and [r]. *)
Lemma calculate_TE_point_factors (A80 r t : R) :
  0 < A80 -> 0 < r ->
  exists k2 k1,
    0 < k2 /\ k2 < k1 /\
    Spec.ratio r * k1 = (1 + Spec.ratio r) * k2 /\
    calculate_TE_point A80 r t =
      Returns {| eps2 := - k2 * Spec.SVL A80 t; eps1 := k1 * Spec.SVL A80 t |}.
Proof.
  intros HA Hr.
  destruct (TE_eps_factors A80 r t) as (k2 & k1 & Hk2 & Hk21 & E2 & E1 & D2 & D1).
  exists k2, k1. split; [exact Hk2 |]. split; [exact Hk21 |]. split.
  - pose proof (spec_denom_gt_1 r) as Hd. subst k1 k2. field. lra.
  - unfold calculate_TE_point. rewrite calculate_TE_strains_valid by assumption.
    cbn [bind eps2_TE eps1_TE]. now rewrite E1, E2.
Qed.

Lemma SVL_pos_in_range (A80 t : R) :
  (A80 <= 50 /\ 1 <= t) \/ (50 <= A80 /\ t <= 1) -> 0 < Spec.SVL A80 t.
Proof.
  intros Hrange. unfold Spec.SVL, Rpower.
  pose proof (exp_pos (0.567 * ln A80)).
  assert (0 <= (t - 1) * (0.12 - 0.0024 * A80)) by (destruct Hrange; nra).
  lra.
Qed.

(** X7: on a positive [A80] and [r], the TE point returned lies on the line
    [ratio * eps1 = -(1 + ratio) * eps2] with [ratio = 0.797 * r^0.701]; its
    minor strain is negative and its major strain positive exactly when
    [SVL_t] is positive, and its minor strain is zero (the abscissa of PS)
    exactly when [SVL_t] is zero. *)
Theorem TE_point_quadrant (A80 r t : R) :
  0 < A80 -> 0 < r ->
  let SVL := 0.0626 * Rpower A80 0.567 + (t - 1) * (0.12 - 0.0024 * A80) in
  let ratio := 0.797 * Rpower r 0.701 in
  exists p,
    calculate_TE_point A80 r t = Returns p /\
    ratio * eps1 p = - (1 + ratio) * eps2 p /\
    (eps2 p < 0 <-> 0 < SVL) /\
    (0 < eps1 p <-> 0 < SVL) /\
    (eps2 p = 0 <-> SVL = 0).
Proof.
  intros HA Hr SVL ratio.
  destruct (calculate_TE_point_factors A80 r t HA Hr)
    as (k2 & k1 & Hk2 & Hk21 & Hk & E).
  eexists. split; [exact E |]. cbn [eps1 eps2].
  change SVL with (Spec.SVL A80 t). change ratio with (Spec.ratio r).
  clear SVL ratio.
  split; [| split; [| split]].
  - transitivity (Spec.ratio r * k1 * Spec.SVL A80 t); [ring |].
    rewrite Hk. ring.
  - split; intros H; nra.
  - split; intros H; nra.
  - split; intros H; [| rewrite H; ring].
    assert (H0 : k2 * Spec.SVL A80 t = 0) by lra.
    apply Rmult_integral in H0. destruct H0; lra.
Qed.

Lemma TE_point_quadrant_witness :
  exists p,
    calculate_TE_point 50 1 1 = Returns p /\ eps2 p < 0 /\ 0 < eps1 p.
Proof.
  destruct (TE_point_quadrant 50 1 1) as (p & E & _ & H2 & H1 & _);
    [lra | lra |].
  assert (H : 0 < 0.0626 * Rpower 50 0.567 + (1 - 1) * (0.12 - 0.0024 * 50)).
  { unfold Rpower. pose proof (exp_pos (0.567 * ln 50)). lra. }
  exists p. split; [exact E |]. split; [apply H2, H | apply H1, H].
Defined.

(** X8: on a positive [A80] and [r], [SVL_t] is positive, and so the TE
    point lies strictly left of PS and above the axis, whenever
    [A80 <= 50] and [t >= 1], or [A80 >= 50] and [t <= 1]. *)
Theorem TE_point_left_of_PS (A80 r t : R) :
  0 < A80 -> 0 < r ->
  (A80 <= 50 /\ 1 <= t) \/ (50 <= A80 /\ t <= 1) ->
  exists p,
    calculate_TE_point A80 r t = Returns p /\ eps2 p < 0 /\ 0 < eps1 p.
Proof.
  intros HA Hr Hrange.
  destruct (calculate_TE_point_factors A80 r t HA Hr)
    as (k2 & k1 & Hk2 & Hk21 & _ & E).
  pose proof (SVL_pos_in_range A80 t Hrange) as H.
  eexists. split; [exact E |]. cbn [eps1 eps2]. split; nra.
Qed.

Lemma TE_point_left_of_PS_witness :
  exists p,
    calculate_TE_point 40.8 1.829 1.2 = Returns p /\ eps2 p < 0 /\ 0 < eps1 p.
Proof.
  apply (TE_point_left_of_PS 40.8 1.829 1.2); [lra | lra | left; lra].
Defined.

(** X9: on a positive [A80] and [r], [denominator] normalises the transverse strains:
    [eps2_TE^2 + eps3_TE^2 = SVL_t^2], with [denominator > 1] and
    [strain_ratio > 0]. *)
Theorem TE_transverse_norm (A80 r t : R) :
  0 < A80 -> 0 < r ->
  exists s,
    calculate_TE_strains A80 r t = Returns s /\
    0 < strain_ratio s /\ 1 < denominator s /\
    eps2_TE s * eps2_TE s + eps3_TE s * eps3_TE s = SVL_t s * SVL_t s.
Proof.
  intros HA Hr. eexists. split; [apply calculate_TE_strains_valid; assumption |].
  cbn [strain_ratio denominator eps2_TE eps3_TE SVL_t].
  pose proof (spec_denom_gt_1 r) as Hd. pose proof (spec_denom_sqr r) as Hs.
  split; [apply ratio_pos |]. split; [exact Hd |].
  unfold Spec.TE_eps2, Spec.TE_eps3.
  set (S := Spec.SVL A80 t) in *. set (q := Spec.ratio r) in *.
  set (d := Spec.denom r) in *.
  replace (- S * q / d * (- S * q / d) + - S / d * (- S / d))
    with (S * S * (1 + q * q) / (d * d)) by (field; lra).
  rewrite <- Hs. field. lra.
Qed.

Lemma TE_transverse_norm_witness :
  exists s,
    calculate_TE_strains 40.8 1.829 1.2 = Returns s /\
    eps2_TE s * eps2_TE s + eps3_TE s * eps3_TE s = SVL_t s * SVL_t s.
Proof.
  destruct (TE_transverse_norm 40.8 1.829 1.2) as (s & E & _ & _ & H);
    [lra | lra |].
  exists s. split; assumption.
Defined.

(** X10: thickness moves the TE point one way below [A80 = 50] and the other
    way above it.  For [t1 <= t2], on a positive [A80] and [r]: when
    [A80 <= 50] the major strain does not decrease and the minor strain
    does not increase from [t1] to [t2]; when [A80 >= 50] it is the
    reverse; at [A80 = 50] the TE point does not depend on the thickness. *)
Theorem TE_point_thickness (A80 r t1 t2 : R) :
  0 < A80 -> 0 < r -> t1 <= t2 ->
  exists p1 p2,
    calculate_TE_point A80 r t1 = Returns p1 /\
    calculate_TE_point A80 r t2 = Returns p2 /\
    (A80 <= 50 -> eps1 p1 <= eps1 p2 /\ eps2 p2 <= eps2 p1) /\
    (50 <= A80 -> eps1 p2 <= eps1 p1 /\ eps2 p1 <= eps2 p2) /\
    (A80 = 50 -> p1 = p2).
Proof.
  intros HA Hr Ht.
  destruct (TE_eps_factors A80 r t1) as (k2 & k1 & Hk2 & Hk21 & E2 & E1 & D2 & D1).
  destruct (TE_eps_factors A80 r t2) as (k2' & k1' & _ & _ & E2' & E1' & D2' & D1').
  subst k2' k1'. rewrite <- D2 in E2'. rewrite <- D1 in E1'.
  do 2 eexists. split; [| split].
  - unfold calculate_TE_point. rewrite calculate_TE_strains_valid by assumption.
    reflexivity.
  - unfold calculate_TE_point. rewrite calculate_TE_strains_valid by assumption.
    reflexivity.
  - cbn [eps1 eps2 eps2_TE eps1_TE bind].
    rewrite E1, E2, E1', E2'.
    assert (HS : Spec.SVL A80 t2 - Spec.SVL A80 t1 =
                 (t2 - t1) * (0.12 - 0.0024 * A80))
      by (unfold Spec.SVL; lra).
    split; [| split].
    + intros H50. assert (0 <= Spec.SVL A80 t2 - Spec.SVL A80 t1) by nra.
      split; nra.
    + intros H50. assert (Spec.SVL A80 t2 - Spec.SVL A80 t1 <= 0) by nra.
      split; nra.
    + intros ->. assert (Spec.SVL 50 t2 = Spec.SVL 50 t1) by lra.
      f_equal; congruence.
Qed.

Lemma TE_point_thickness_witness :
  exists p1 p2,
    calculate_TE_point 40.8 1.829 1 = Returns p1 /\
    calculate_TE_point 40.8 1.829 1.2 = Returns p2 /\
    eps1 p1 <= eps1 p2 /\ eps2 p2 <= eps2 p1.
Proof.
  destruct (TE_point_thickness 40.8 1.829 1 1.2)
    as (p1 & p2 & E1 & E2 & H & _); [lra | lra | lra |].
  exists p1, p2. split; [exact E1 |]. split; [exact E2 |]. apply H. lra.
Defined.

(** ** The thickness regimes *)

Lemma t_trans_bounds (A : R) : 0 < A -> 85 / 114 < Spec.t_trans A < 1.5.
Proof.
  intros HA. pose proof (t_trans_minus_one A (Rlt_le _ _ HA)) as H.
  set (tt := Spec.t_trans A) in *.
  assert (HD : 0 < 0.6 + 0.00285 * A) by lra.
  split.
  - apply Rmult_lt_reg_r with (r := 0.6 + 0.00285 * A); [exact HD |].
    replace (tt * (0.6 + 0.00285 * A))
      with ((tt - 1) * (0.6 + 0.00285 * A) + (0.6 + 0.00285 * A)) by lra.
    rewrite H. lra.
  - apply Rmult_lt_reg_r with (r := 0.6 + 0.00285 * A); [exact HD |].
    replace (tt * (0.6 + 0.00285 * A))
      with ((tt - 1) * (0.6 + 0.00285 * A) + (0.6 + 0.00285 * A)) by lra.
    rewrite H. lra.
Qed.

(** X11: the transition thickness of a positive elongation lies strictly
    between [85/114] (about 0.746) and [1.5].  So on a valid input with
    [t >= 1.5] both BI and IM take the thick-sheet value, whatever the
    elongations, and with [t <= 85/114] both take the thin-sheet formula. *)
Theorem regime_by_thickness (A80 r0 r45 r90 t : R) (A80min : option R) :
  Spec.valid_input A80 r0 r45 r90 t A80min ->
  let A := match A80min with
           | None => A80
           | Some v => if Req_dec_T v 0 then A80 else v
           end in
  exists m,
    init A80 r0 r45 r90 t A80min = Returns m /\
    (1.5 <= t ->
       eps1 (BI m) = 0.005 * A + 0.25 /\
       eps1 (IM m) = 0.0062 * A80 + 0.18) /\
    (t <= 85 / 114 ->
       eps1 (BI m) = 0.00215 * A + 0.25 + 0.00285 * A * t /\
       eps1 (IM m) = 0.0062 * A80 + 0.18 + 0.0027 * A80 * (t - 1)).
Proof.
  intros valid A. eexists. split; [apply init_valid; exact valid |].
  pose proof (valid_effective_pos _ _ _ _ _ _ valid) as HAm.
  destruct valid as (HA & _).
  change (Spec.effective_A80min A80 A80min) with A in *.
  pose proof (t_trans_bounds A HAm) as HtA.
  pose proof (t_trans_bounds A80 HA) as Ht80.
  cbn [BI IM eps1 eps2].
  unfold Spec.BI_thin, Spec.BI_thick, Spec.IM_thin, Spec.IM_thick.
  destruct (Rle_dec t (Spec.t_trans A80)), (Rle_dec t (Spec.t_trans A));
    split; intros Ht; split; lra.
Qed.

Lemma regime_by_thickness_witness :
  exists m,
    init 40.8 1.769 1.661 2.225 2 (Some 35) = Returns m /\
    eps1 (BI m) = 0.005 * 35 + 0.25 /\
    eps1 (IM m) = 0.0062 * 40.8 + 0.18.
Proof.
  destruct (regime_by_thickness 40.8 1.769 1.661 2.225 2 (Some 35))
    as (m & E & Hthick & _).
  - unfold Spec.valid_input. repeat split; lra.
  - exists m. split; [exact E |].
    destruct (Req_dec_T 35 0) as [C | _]; [lra |]. apply Hthick. lra.
Defined.

(** ** Rounding to a tenth *)

Lemma Int_part_IZR (n : Z) : Int_part (IZR n) = n.
Proof. symmetry. apply Int_part_spec. lra. Qed.

Lemma ceil_minus_floor (y : R) :
  (y = Np.floor y /\ Np.ceil y = Np.floor y) \/
  (Np.floor y < y /\ Np.ceil y = Np.floor y + 1).
Proof.
  unfold Np.ceil, Np.floor.
  destruct (base_Int_part y) as [H1 H2]. set (n := Int_part y) in *.
  destruct (Req_dec_T y (IZR n)) as [E | N].
  - left. split; [exact E |].
    assert (Hc : (- n)%Z = Int_part (- y)).
    { apply Int_part_spec. rewrite opp_IZR. lra. }
    rewrite <- Hc, opp_IZR. ring.
  - right. split; [lra |].
    assert (Hc : (- n - 1)%Z = Int_part (- y)).
    { apply Int_part_spec. rewrite minus_IZR, opp_IZR. lra. }
    rewrite <- Hc, minus_IZR, opp_IZR. ring.
Qed.

(** X12: the two roundings bracket their argument within less than a tenth,
    [x - 0.1 < round_down x <= x <= round_up x < x + 0.1]; they are equal
    when one of them is [x], and a tenth apart otherwise; and rounding a
    rounded value again changes nothing. *)
Theorem round_to_tenth_brackets (x : R) :
  x - 0.1 < round_down_to_nearest_tenth x <= x /\
  x <= round_up_to_nearest_tenth x < x + 0.1 /\
  (round_down_to_nearest_tenth x = x <-> round_up_to_nearest_tenth x = x) /\
  (round_up_to_nearest_tenth x = round_down_to_nearest_tenth x \/
   round_up_to_nearest_tenth x = round_down_to_nearest_tenth x + 0.1) /\
  round_down_to_nearest_tenth (round_down_to_nearest_tenth x) =
    round_down_to_nearest_tenth x /\
  round_up_to_nearest_tenth (round_up_to_nearest_tenth x) =
    round_up_to_nearest_tenth x.
Proof.
  pose proof (left_limit_bounds x) as Hl.
  pose proof (right_limit_bounds x) as Hr.
  pose proof (ceil_minus_floor (x * 10)) as Hcf.
  unfold round_down_to_nearest_tenth, round_up_to_nearest_tenth in *.
  split; [lra |]. split; [lra |]. split; [| split; [| split]].
  - destruct Hcf as [[E C] | [L C]]; rewrite C; split; intros H; lra.
  - destruct Hcf as [[E C] | [L C]]; rewrite C; [left | right]; lra.
  - unfold Np.floor.
    replace (IZR (Int_part (x * 10)) / 10 * 10) with (IZR (Int_part (x * 10)))
      by lra.
    now rewrite Int_part_IZR.
  - unfold Np.ceil.
    replace (- IZR (Int_part (- (x * 10))) / 10 * 10)
      with (IZR (- Int_part (- (x * 10)))) by (rewrite opp_IZR; lra).
    rewrite <- (opp_IZR (- Int_part (- (x * 10)))), Int_part_IZR, opp_IZR.
    rewrite opp_IZR. lra.
Qed.

(** ** The extrapolator on any number of points *)

Lemma index_nonneg (l : list R) (i : Z) :
  (0 <= i < Z.of_nat (List.length l))%Z ->
  Py.index l i = Returns (nth (Z.to_nat i) l 0).
Proof.
  intros Hi. unfold Py.index.
  destruct (Z.ltb_spec i 0) as [C | _]; [lia |].
  destruct (Z.leb_spec 0 i) as [_ | C]; [| lia].
  destruct (Z.ltb_spec i (Z.of_nat (List.length l))) as [_ | C]; [| lia].
  cbn [andb]. rewrite nth_error_nth' with (d := 0) by lia. reflexivity.
Qed.

Lemma index_negative (l : list R) (i : Z) :
  (- Z.of_nat (List.length l) <= i < 0)%Z ->
  Py.index l i = Returns (nth (Z.to_nat (i + Z.of_nat (List.length l))) l 0).
Proof.
  intros Hi. unfold Py.index.
  destruct (Z.ltb_spec i 0) as [_ | C]; [| lia].
  destruct (Z.leb_spec 0 (i + Z.of_nat (List.length l))) as [_ | C]; [| lia].
  destruct (Z.ltb_spec (i + Z.of_nat (List.length l)) (Z.of_nat (List.length l)))
    as [_ | C]; [| lia].
  cbn [andb]. rewrite nth_error_nth' with (d := 0) by lia. reflexivity.
Qed.

Lemma index_out_of_range (l : list R) (i : Z) :
  (Z.of_nat (List.length l) <= i \/ i < - Z.of_nat (List.length l))%Z ->
  Py.index l i = Raises IndexError.
Proof.
  intros Hi. unfold Py.index.
  destruct (Z.ltb_spec i 0) as [C | C].
  - destruct (Z.leb_spec 0 (i + Z.of_nat (List.length l))) as [C' | _];
      [lia | reflexivity].
  - destruct (Z.leb_spec 0 i) as [_ | C']; [| lia].
    destruct (Z.ltb_spec i (Z.of_nat (List.length l))) as [C' | _];
      [lia | reflexivity].
Qed.

(** The four items the extrapolator reads from a list of at least two. *)
Lemma index_end_points (l : list R) :
  (2 <= List.length l)%nat ->
  Py.index l 0 = Returns (nth 0 l 0) /\
  Py.index l 1 = Returns (nth 1 l 0) /\
  Py.index l (-2) = Returns (nth (List.length l - 2) l 0) /\
  Py.index l (-1) = Returns (nth (List.length l - 1) l 0).
Proof.
  intros Hl. repeat split.
  - now rewrite index_nonneg by lia.
  - now rewrite index_nonneg by lia.
  - rewrite index_negative by lia. do 2 f_equal. lia.
  - rewrite index_negative by lia. do 2 f_equal. lia.
Qed.

Lemma extrapolate_end_points (xs ys : list R) :
  (2 <= List.length xs)%nat -> (2 <= List.length ys)%nat ->
  extrapolate_FLC_dynamically xs ys =
    extrapolate_FLC_dynamically
      [nth 0 xs 0; nth 1 xs 0;
       nth (List.length xs - 2) xs 0; nth (List.length xs - 1) xs 0]
      [nth 0 ys 0; nth 1 ys 0;
       nth (List.length ys - 2) ys 0; nth (List.length ys - 1) ys 0].
Proof.
  intros Hx Hy.
  destruct (index_end_points xs Hx) as (X0 & X1 & X2 & X3).
  destruct (index_end_points ys Hy) as (Y0 & Y1 & Y2 & Y3).
  unfold extrapolate_FLC_dynamically at 1.
  rewrite X0, Y0, X1, Y1, X2, Y2, X3, Y3. reflexivity.
Qed.

(** X13: the extrapolator returns exactly when both lists hold at least two
    items; on a shorter list of abscissas or of ordinates it raises
    [IndexError]. *)
Theorem extrapolate_needs_two_points (xs ys : list R) :
  ((2 <= List.length xs)%nat /\ (2 <= List.length ys)%nat ->
     exists left_line right_line,
       extrapolate_FLC_dynamically xs ys = Returns (left_line, right_line)) /\
  ((List.length xs < 2)%nat \/ (List.length ys < 2)%nat ->
     extrapolate_FLC_dynamically xs ys = Raises IndexError).
Proof.
  split.
  - intros [Hx Hy]. rewrite extrapolate_end_points by assumption.
    rewrite extrapolate_four_points. do 2 eexists. reflexivity.
  - intros H. unfold extrapolate_FLC_dynamically.
    destruct xs as [| x0 [| x1 xs']]; [reflexivity | |].
    + rewrite index_nonneg by (cbn; lia). cbn [bind].
      destruct ys as [| y0 ys']; [reflexivity |].
      rewrite index_nonneg by (cbn [List.length]; lia). reflexivity.
    + destruct H as [H | H]; [cbn in H; lia |].
      rewrite index_nonneg by (cbn [List.length]; lia). cbn [bind].
      destruct ys as [| y0 [| y1 ys']]; [reflexivity | | cbn in H; lia].
      rewrite index_nonneg by (cbn [List.length]; lia). cbn [bind].
      rewrite index_nonneg by (cbn [List.length]; lia). reflexivity.
Qed.

(** X14: on lists of at least two items the extrapolator reads only the
    first two and the last two of each: every point in between is ignored,
    and on exactly two points TE doubles as IM and PS as BI. *)
Theorem extrapolate_reads_end_points
    (x0 x1 x2 x3 y0 y1 y2 y3 : R) (xs ys : list R) :
  extrapolate_FLC_dynamically (x0 :: x1 :: xs ++ [x2; x3])
                              (y0 :: y1 :: ys ++ [y2; y3]) =
    extrapolate_FLC_dynamically [x0; x1; x2; x3] [y0; y1; y2; y3] /\
  extrapolate_FLC_dynamically [x0; x1] [y0; y1] =
    extrapolate_FLC_dynamically [x0; x1; x0; x1] [y0; y1; y0; y1].
Proof.
  split; [| reflexivity].
  assert (Hnth : forall (a b c d : R) (l : list R),
             let full := a :: b :: l ++ [c; d] in
             nth 0 full 0 = a /\ nth 1 full 0 = b /\
             nth (List.length full - 2) full 0 = c /\
             nth (List.length full - 1) full 0 = d /\
             (2 <= List.length full)%nat).
  { intros a b c d l full. unfold full. cbn [nth List.length].
    rewrite length_app. cbn [List.length].
    replace (S (S (List.length l + 2)) - 2)%nat with (S (S (List.length l)))
      by lia.
    replace (S (S (List.length l + 2)) - 1)%nat with (S (S (S (List.length l))))
      by lia.
    cbn [nth].
    rewrite app_nth2 by lia. rewrite Nat.sub_diag.
    rewrite app_nth2 by lia.
    replace (S (List.length l) - List.length l)%nat with 1%nat by lia.
    cbn [nth]. repeat split; lia. }
  destruct (Hnth x0 x1 x2 x3 xs) as (X0 & X1 & X2 & X3 & HX).
  destruct (Hnth y0 y1 y2 y3 ys) as (Y0 & Y1 & Y2 & Y3 & HY).
  rewrite extrapolate_end_points by assumption.
  now rewrite X0, X1, X2, X3, Y0, Y1, Y2, Y3.
Qed.

Lemma extrapolate_needs_two_points_witness :
  (exists left_line right_line,
     extrapolate_FLC_dynamically [0; 1] [2; 3] = Returns (left_line, right_line)) /\
  extrapolate_FLC_dynamically [0] [2; 3] = Raises IndexError.
Proof.
  destruct (extrapolate_needs_two_points [0; 1] [2; 3]) as [H _].
  destruct (extrapolate_needs_two_points [0] [2; 3]) as [_ H'].
  split; [apply H; cbn; lia | apply H'; left; cbn; lia].
Defined.

(** ** The segments on four points *)

Lemma nth_map_in_range (f : R -> R) (l : list R) (i : nat) :
  (i < List.length l)%nat -> nth i (map f l) 0 = f (nth i l 0).
Proof.
  intros Hi. rewrite nth_indep with (d' := f 0) by now rewrite length_map.
  apply map_nth.
Qed.

Lemma last_map_linspace (f : R -> R) (a b : R) (k : nat) :
  (1 <= k)%nat -> last (map f (Np.linspace a b (S k))) 0 = f b.
Proof.
  intros Hk. rewrite linspace_shape by exact Hk.
  rewrite map_app. cbn [map]. apply last_last.
Qed.

Lemma hd_map_linspace (f : R -> R) (a b : R) (k : nat) :
  (1 <= k)%nat -> hd 0 (map f (Np.linspace a b (S k))) = f a.
Proof.
  intros Hk. rewrite linspace_shape by exact Hk.
  destruct k as [| k']; [lia |].
  cbn [seq map app hd INR]. f_equal. lra.
Qed.

(** X15: on four points the two dashed segments continue the curve: the
    left one ends at the TE point itself and the right one starts at the BI
    point itself; and when the two abscissas of an end differ, every sample
    of that side is collinear with the two end points (TE and PS on the
    left, IM and BI on the right). *)
Theorem segments_continue_the_curve (x0 x1 x2 x3 y0 y1 y2 y3 : R) :
  exists xl yl xr yr,
    extrapolate_FLC_dynamically [x0; x1; x2; x3] [y0; y1; y2; y3] =
      Returns ((xl, yl), (xr, yr)) /\
    (last xl 0, last yl 0) = (x0, y0) /\
    (hd 0 xr, hd 0 yr) = (x3, y3) /\
    (x1 <> x0 -> forall i, (i < 50)%nat ->
       (nth i yl 0 - y0) * (x1 - x0) = (y1 - y0) * (nth i xl 0 - x0)) /\
    (x3 <> x2 -> forall i, (i < 50)%nat ->
       (nth i yr 0 - y3) * (x3 - x2) = (y3 - y2) * (nth i xr 0 - x3)).
Proof.
  do 4 eexists. split; [apply extrapolate_four_points |].
  cbv zeta.
  split; [| split; [| split]].
  - rewrite linspace_last by lia. rewrite last_map_linspace by lia.
    f_equal. ring.
  - rewrite linspace_first by lia. rewrite hd_map_linspace by lia.
    f_equal. ring.
  - intros Hne i Hi.
    rewrite nth_map_in_range by (rewrite linspace_length by lia; exact Hi).
    destruct (Py.ne_dec x1 x0) as [_ | E]; [| contradiction].
    field. intros C. apply Hne. lra.
  - intros Hne i Hi.
    rewrite nth_map_in_range by (rewrite linspace_length by lia; exact Hi).
    destruct (Py.ne_dec x3 x2) as [_ | E]; [| contradiction].
    field. intros C. apply Hne. lra.
Qed.

Lemma segments_continue_the_curve_witness :
  exists xl yl xr yr,
    extrapolate_FLC_dynamically [-0.2; 0; 0.3; 0.4] [0.5; 0.3; 0.4; 0.45] =
      Returns ((xl, yl), (xr, yr)) /\
    (nth 0 yl 0 - 0.5) * (0 - -0.2) = (0.3 - 0.5) * (nth 0 xl 0 - -0.2).
Proof.
  destruct (segments_continue_the_curve (-0.2) 0 0.3 0.4 0.5 0.3 0.4 0.45)
    as (xl & yl & xr & yr & E & _ & _ & H & _).
  exists xl, yl, xr, yr. split; [exact E |]. apply H; [lra | lia].
Defined.

(** X16: on four points each dashed segment reaches at least one tenth and
    less than two tenths beyond its end point, and its abscissas increase
    strictly from sample to sample, so the left one stays left of TE and the
    right one right of BI. *)
Theorem segments_extend_outward (x0 x1 x2 x3 y0 y1 y2 y3 : R) :
  exists xl yl xr yr,
    extrapolate_FLC_dynamically [x0; x1; x2; x3] [y0; y1; y2; y3] =
      Returns ((xl, yl), (xr, yr)) /\
    x0 - 0.2 < hd 0 xl <= x0 - 0.1 /\
    x3 + 0.1 <= last xr 0 < x3 + 0.2 /\
    (forall i j, (i < j < 50)%nat ->
       nth i xl 0 < nth j xl 0 /\ nth i xr 0 < nth j xr 0) /\
    (forall i, (i < 50)%nat -> nth i xl 0 <= x0 /\ x3 <= nth i xr 0).
Proof.
  do 4 eexists. split; [apply extrapolate_four_points |].
  cbv zeta.
  pose proof (left_limit_bounds x0) as Hl.
  pose proof (right_limit_bounds x3) as Hr.
  set (a := round_down_to_nearest_tenth x0 - 0.1) in *.
  set (b := round_up_to_nearest_tenth x3 + 0.1) in *.
  assert (Hstep_l : 0 < (x0 - a) / INR 49) by (simpl INR; lra).
  assert (Hstep_r : 0 < (b - x3) / INR 49) by (simpl INR; lra).
  split; [rewrite linspace_first by lia; lra |].
  split; [rewrite linspace_last by lia; lra |].
  split.
  - intros i j [Hij Hj].
    rewrite !linspace_nth by lia.
    assert (INR i < INR j) by now apply lt_INR.
    split; nra.
  - intros i Hi. rewrite !linspace_nth by lia.
    assert (Hi49 : INR i <= INR 49) by (apply le_INR; lia).
    pose proof (pos_INR i) as Hi0.
    assert (E49 : INR 49 * / INR 49 = 1)
      by (apply Rinv_r; apply not_0_INR; lia).
    unfold Rdiv in *. split.
    + assert (INR i * ((x0 - a) * / INR 49) <= INR 49 * ((x0 - a) * / INR 49))
        by (apply Rmult_le_compat_r; lra).
      assert (INR 49 * ((x0 - a) * / INR 49) = x0 - a)
        by (rewrite (Rmult_comm (x0 - a)), <- Rmult_assoc, E49; ring).
      lra.
    + assert (0 <= INR i * ((b - x3) * / INR 49))
        by (apply Rmult_le_pos; lra).
      lra.
Qed.

(** ** The plot *)

Lemma index_linspace_first (a b : R) :
  Py.index (Np.linspace a b 50) 0 = Returns a.
Proof.
  rewrite index_nonneg by (rewrite linspace_length; lia).
  change (Z.to_nat 0) with 0%nat. rewrite linspace_nth by lia.
  cbn [INR]. f_equal. lra.
Qed.

Lemma index_linspace_last (a b : R) :
  Py.index (Np.linspace a b 50) (-1) = Returns b.
Proof.
  rewrite index_negative by (rewrite linspace_length; lia).
  rewrite linspace_length by lia. change (Z.to_nat (-1 + Z.of_nat 50)) with 49%nat.
  rewrite linspace_shape by lia. rewrite app_nth2 by (rewrite length_map, length_seq; lia).
  rewrite length_map, length_seq, Nat.sub_diag. reflexivity.
Qed.

Lemma plot_FLC_value (extrapolate_left extrapolate_right : bool)
    (self : FLCPredictor) :
  let xs := [eps2 (TE self); eps2 (PS self); eps2 (IM self); eps2 (BI self)] in
  let ys := [eps1 (TE self); eps1 (PS self); eps1 (IM self); eps1 (BI self)] in
  exists left_line right_line lo hi top,
    extrapolate_FLC_dynamically xs ys = Returns (left_line, right_line) /\
    Plot.min xs = inr lo /\ Plot.max xs = inr hi /\ Plot.max ys = inr top /\
    plot_FLC extrapolate_left extrapolate_right self =
      (inr (Plot.mkAxes xs ys
              (if extrapolate_left then Some left_line else None)
              (if extrapolate_right then Some right_line else None)
              (if extrapolate_left
               then round_down_to_nearest_tenth (eps2 (TE self)) - 0.1 - 0.05
               else lo - 0.05,
               if extrapolate_right
               then round_up_to_nearest_tenth (eps2 (BI self)) + 0.1 + 0.05
               else hi + 0.05)
              (0, top + 0.1)),
       self).
Proof.
  cbv zeta. do 5 eexists.
  split; [apply extrapolate_four_points |].
  split; [reflexivity |]. split; [reflexivity |]. split; [reflexivity |].
  unfold plot_FLC, get_FLC_points.
  cbn [Plot.comprehension Plot.dict_get find fst snd Plot.and_then String.eqb
       Ascii.eqb Bool.eqb].
  rewrite extrapolate_four_points. cbv zeta.
  cbn [Plot.of_outcome Plot.and_then fst snd].
  destruct extrapolate_left, extrapolate_right;
    rewrite ?index_linspace_first, ?index_linspace_last;
    cbn [Plot.of_outcome Plot.and_then Plot.max Plot.min]; reflexivity.
Qed.

Lemma fold_min_spec (l : list R) (acc : R) :
  let m := fold_left (fun m y => if Rlt_dec y m then y else m) l acc in
  (m = acc \/ In m l) /\ m <= acc /\ forall x, In x l -> m <= x.
Proof.
  revert acc. induction l as [| y l IH]; intros acc; cbn [fold_left].
  - split; [now left |]. split; [lra | intros x []].
  - destruct (IH (if Rlt_dec y acc then y else acc)) as (Hin & Hle & Hall).
    set (m := fold_left _ l _) in *.
    destruct (Rlt_dec y acc) as [L | N].
    + split; [right; destruct Hin as [-> | Hin]; [now left | now right] |].
      split; [lra |]. intros x [<- | Hx]; [lra | now apply Hall].
    + split; [destruct Hin as [-> | Hin]; [now left | right; now right] |].
      split; [lra |]. intros x [<- | Hx]; [lra | now apply Hall].
Qed.

Lemma fold_max_spec (l : list R) (acc : R) :
  let m := fold_left (fun m y => if Rlt_dec m y then y else m) l acc in
  (m = acc \/ In m l) /\ acc <= m /\ forall x, In x l -> x <= m.
Proof.
  revert acc. induction l as [| y l IH]; intros acc; cbn [fold_left].
  - split; [now left |]. split; [lra | intros x []].
  - destruct (IH (if Rlt_dec acc y then y else acc)) as (Hin & Hle & Hall).
    set (m := fold_left _ l _) in *.
    destruct (Rlt_dec acc y) as [L | N].
    + split; [right; destruct Hin as [-> | Hin]; [now left | now right] |].
      split; [lra |]. intros x [<- | Hx]; [lra | now apply Hall].
    + split; [destruct Hin as [-> | Hin]; [now left | right; now right] |].
      split; [lra |]. intros x [<- | Hx]; [lra | now apply Hall].
Qed.

Lemma min_spec (l : list R) (m : R) :
  Plot.min l = inr m -> In m l /\ forall x, In x l -> m <= x.
Proof.
  destruct l as [| a l]; [discriminate |]. cbn [Plot.min].
  intros H. injection H as <-.
  destruct (fold_min_spec l a) as (Hin & Hle & Hall). split.
  - destruct Hin as [-> | Hin]; [now left | now right].
  - intros x [<- | Hx]; [exact Hle | now apply Hall].
Qed.

Lemma max_spec (l : list R) (m : R) :
  Plot.max l = inr m -> In m l /\ forall x, In x l -> x <= m.
Proof.
  destruct l as [| a l]; [discriminate |]. cbn [Plot.max].
  intros H. injection H as <-.
  destruct (fold_max_spec l a) as (Hin & Hle & Hall). split.
  - destruct Hin as [-> | Hin]; [now left | now right].
  - intros x [<- | Hx]; [exact Hle | now apply Hall].
Qed.


(** The four points of an outcome of the constructor. *)
Lemma init_points_depend_on_r (A80 r0 r45 r90 r0' r45' r90' t : R)
    (A80min : option R) :
  r0 + 2 * r45 + r90 = r0' + 2 * r45' + r90' ->
  bind (init A80 r0 r45 r90 t A80min)
       (fun m => Returns (TE m, PS m, IM m, BI m)) =
  bind (init A80 r0' r45' r90' t A80min)
       (fun m => Returns (TE m, PS m, IM m, BI m)).
Proof.
  intros Hr. unfold init, _calculate_all_points. rewrite Hr.
  destruct (and_also _ _) as [[te [[ps im] bi]] | e | ]; reflexivity.
Qed.

(** X20: the anisotropy coefficients enter the model through the sum
    [r0 + 2*r45 + r90] alone: two calls of the constructor that agree on it
    (and on [A80], [t], [A80min]) end alike, with the same four points or
    the same error; in particular exchanging [r0] and [r90] changes no
    point. *)
Theorem init_anisotropy_through_mean (A80 r0 r45 r90 r0' r45' r90' t : R)
    (A80min : option R) :
  r0 + 2 * r45 + r90 = r0' + 2 * r45' + r90' ->
  bind (init A80 r0 r45 r90 t A80min)
       (fun m => Returns (TE m, PS m, IM m, BI m)) =
  bind (init A80 r0' r45' r90' t A80min)
       (fun m => Returns (TE m, PS m, IM m, BI m)) /\
  bind (init A80 r0 r45 r90 t A80min)
       (fun m => Returns (TE m, PS m, IM m, BI m)) =
  bind (init A80 r90 r45 r0 t A80min)
       (fun m => Returns (TE m, PS m, IM m, BI m)).
Proof.
  intros Hr. split; apply init_points_depend_on_r; lra.
Qed.

Lemma init_anisotropy_through_mean_witness :
  bind (init 40.8 1.769 1.661 2.225 1.2 None)
       (fun m => Returns (TE m, PS m, IM m, BI m)) =
  bind (init 40.8 1.829 1.829 1.829 1.2 None)
       (fun m => Returns (TE m, PS m, IM m, BI m)).
Proof.
  apply (init_anisotropy_through_mean 40.8 1.769 1.661 2.225 1.829 1.829 1.829
           1.2 None).
  lra.
Defined.

Lemma calculate_BI_point_fallback_witness :
  calculate_BI_point 40.8 1.2 (Some 35) = calculate_BI_point 0 1.2 (Some 35).
Proof.
  destruct (calculate_BI_point_fallback 40.8 1.2) as (_ & _ & H).
  apply H. lra.
Defined.

Lemma calculators_raise_iff_witness :
  calculate_IM_point (-4000 / 19) 1.2 = Raises ZeroDivisionError /\
  exists p, calculate_IM_point 40.8 1.2 = Returns p.
Proof.
  destruct (calculators_raise_iff (-4000 / 19) 1.2 None) as ((_ & H) & _).
  destruct (calculators_raise_iff 40.8 1.2 None) as (_ & H' & _).
  split; [apply H; reflexivity | apply H'; lra].
Defined.
